(** * geojson-diff: matching two GeoJSON feature collections

    A shallow embedding of [scripts/geojson-diff.py]: the feature
    normalizer ([DatasetInMemory.add_item]), the loader
    ([GeojsonCompare._load_geojson]), the matching engine
    ([GeojsonCompare.compute]) and the two renderers
    ([diff_geojson_full], [summary_tabular]).

    Python values that come out of [json.load] are modelled by [json];
    Python exceptions by the [exc] monad.  Numbers are rationals: every
    finite IEEE double and every Python int is one, and Python compares
    ints and floats exactly.  NaN (a non-standard JSON extension) is
    outside the model. *)

From Stdlib Require Import List String Ascii Bool Arith ZArith QArith Lia.
From Stdlib Require Import Qabs DecimalString.
Import ListNotations.

Local Open Scope string_scope.
Local Open Scope list_scope.

(* ------------------------------------------------------------------ *)
(** ** Exceptions *)

Inductive pyerr : Type :=
| TypeError
| KeyError
| IndexError
| AttributeError
| ValueError.

Inductive exc (A : Type) : Type :=
| Ok (a : A)
| Raise (e : pyerr).

Arguments Ok {A} a.
Arguments Raise {A} e.

Definition bind {A B : Type} (m : exc A) (k : A -> exc B) : exc B :=
  match m with
  | Ok a => k a
  | Raise e => Raise e
  end.

Notation "x <- m ;; k" := (bind m (fun x => k))
  (at level 61, m at next level, right associativity).
Notation "' pat <- m ;; k" := (bind m (fun x => match x with pat => k end))
  (at level 61, pat pattern, m at next level, right associativity).

Definition raises {A : Type} (m : exc A) : Prop :=
  exists e, m = Raise e.

(* ------------------------------------------------------------------ *)
(** ** Python values loaded from JSON *)

#[local] Set Warnings "-register-all".

(** [JObj] lists the items of a dict in iteration order; its keys are
    pairwise distinct, as [json.load] produces them. *)
Inductive json : Type :=
| JNull
| JBool (b : bool)
| JNum (q : Q)
| JStr (s : string)
| JArr (l : list json)
| JObj (fields : list (string * json)).

Module Py.

(** [bool(v)] *)
Definition truthy (v : json) : bool :=
  match v with
  | JNull => false
  | JBool b => b
  | JNum q => negb (Qeq_bool q 0)
  | JStr s => negb (String.eqb s "")
  | JArr l => match l with [] => false | _ => true end
  | JObj f => match f with [] => false | _ => true end
  end.

(** [v is None] *)
Definition is_none (v : json) : bool :=
  match v with
  | JNull => true
  | _ => false
  end.

(** [d.get(k)] on the items of a dict *)
Fixpoint assoc {V : Type} (k : string) (d : list (string * V)) : option V :=
  match d with
  | [] => None
  | (k', v) :: d' => if String.eqb k k' then Some v else assoc k d'
  end.

Definition num_of_bool (b : bool) : Q := if b then 1%Q else 0%Q.

(** [x == y] *)
Fixpoint eqb (x y : json) {struct x} : bool :=
  match x, y with
  | JNull, JNull => true
  | JBool a, JBool b => Bool.eqb a b
  | JBool a, JNum q => Qeq_bool (num_of_bool a) q
  | JNum p, JBool b => Qeq_bool p (num_of_bool b)
  | JNum p, JNum q => Qeq_bool p q
  | JStr s, JStr t => String.eqb s t
  | JArr xs, JArr ys =>
      (fix all2 (xs ys : list json) {struct xs} : bool :=
         match xs, ys with
         | [], [] => true
         | x' :: xs', y' :: ys' => eqb x' y' && all2 xs' ys'
         | _, _ => false
         end) xs ys
  | JObj xs, JObj ys =>
      Nat.eqb (List.length xs) (List.length ys) &&
      (fix sub (xs : list (string * json)) {struct xs} : bool :=
         match xs with
         | [] => true
         | (k, v) :: xs' =>
             match assoc k ys with
             | Some w => eqb v w
             | None => false
             end && sub xs'
         end) xs
  | _, _ => false
  end.

(** [p in s] for two strings *)
Fixpoint is_infix (p s : string) : bool :=
  String.prefix p s ||
  match s with
  | EmptyString => false
  | String _ s' => is_infix p s'
  end.

(** [k in v] for a string [k] *)
Definition contains (k : string) (v : json) : exc bool :=
  match v with
  | JObj f => Ok (match assoc k f with Some _ => true | None => false end)
  | JArr l => Ok (existsb (fun x => eqb (JStr k) x) l)
  | JStr s => Ok (is_infix k s)
  | _ => Raise TypeError
  end.

(** [v[k]] for a string [k] *)
Definition getitem (v : json) (k : string) : exc json :=
  match v with
  | JObj f => match assoc k f with Some w => Ok w | None => Raise KeyError end
  | _ => Raise TypeError
  end.

(** [v[n]] for a non-negative int [n] *)
Definition getindex (v : json) (n : nat) : exc json :=
  match v with
  | JArr l => match nth_error l n with Some w => Ok w | None => Raise IndexError end
  | JStr s =>
      match String.get n s with
      | Some c => Ok (JStr (String c EmptyString))
      | None => Raise IndexError
      end
  | JObj _ => Raise KeyError
  | _ => Raise TypeError
  end.

(** [v.items()] *)
Definition items (v : json) : exc (list (string * json)) :=
  match v with
  | JObj f => Ok f
  | _ => Raise AttributeError
  end.

(** [len(v.keys())] *)
Definition len_keys (v : json) : exc nat :=
  f <- items v ;; Ok (List.length f).

(** the values a [for x in v] loop visits *)
Definition iter (v : json) : exc (list json) :=
  match v with
  | JArr l => Ok l
  | JObj f => Ok (map (fun kv => JStr (fst kv)) f)
  | JStr s => Ok (map (fun c => JStr (String c EmptyString)) (list_ascii_of_string s))
  | _ => Raise TypeError
  end.

(** [str(n)] for a non-negative int *)
Definition str_of_nat (n : nat) : string :=
  NilEmpty.string_of_uint (Nat.to_uint n).

(** [sep.join(l)] *)
Definition join (sep : string) (l : list string) : string :=
  String.concat sep l.

End Py.

(* ------------------------------------------------------------------ *)
(** ** External libraries

    [haversine], [shapely] and a few built-ins whose results the
    program only passes along are taken as given. *)

Record Externals : Type := {
  (** [haversine(p, q, unit=Unit.METERS)] on two (latitude, longitude)
      tuples *)
  haversine : json * json -> json * json -> exc Q;
  (** [Polygon(ring).centroid], as (x, y) *)
  polygon_centroid : json -> exc (Q * Q);
  (** [str(v)], as an f-string formats a value *)
  py_str : json -> string;
  (** [s.strip()] *)
  py_strip : string -> string;
  (** [round(x, 2)] *)
  py_round2 : Q -> Q
}.

(* ------------------------------------------------------------------ *)
(** ** DatasetInMemory *)

(** What [add_item] appends to [items]: [False], [None], or the tuple
    [(coords, props, geometry_original)]; [coords] is itself the tuple
    (latitude, longitude), and an absent [props] or geometry is [JNull]
    (Python's [None]). *)
Inductive stored : Type :=
| SFalse
| SNone
| STuple (coords : json * json) (props : json) (geometry : json).

Definition stored_truthy (s : stored) : bool :=
  match s with
  | STuple _ _ _ => true
  | _ => false
  end.

Record DatasetInMemory : Type := {
  alias : string;
  index : Z;
  items : list stored
}.

Definition DatasetInMemory_init (alias : string) : DatasetInMemory :=
  {| alias := alias; index := (-1)%Z; items := [] |}.

Section Normalizer.

Variable L : Externals.

(** the [props] computed from container [key] of [item]:
    [key in item and item[key] and len(item[key].keys())] *)
Definition props_from (item : json) (key : string) : exc json :=
  present <- Py.contains key item ;;
  if present then
    v <- Py.getitem item key ;;
    if Py.truthy v then
      n <- Py.len_keys v ;;
      if (0 <? n)%nat then Ok v else Ok JNull
    else Ok JNull
  else Ok JNull.

(** the value [add_item] appends for [item] *)
Definition normalize (item : json) : exc stored :=
  if negb (Py.truthy item) then Ok SFalse else
  has_geometry <- Py.contains "geometry" item ;;
  if negb has_geometry then Ok SFalse else
  geometry <- Py.getitem item "geometry" ;;
  has_coordinates <- Py.contains "coordinates" geometry ;;
  if negb has_coordinates then Ok SFalse else
  has_type <- Py.contains "type" item ;;
  if negb has_type then Ok SFalse else
  gtype <- Py.getitem geometry "type" ;;
  if negb (Py.eqb gtype (JStr "Point")) then
    if Py.eqb gtype (JStr "Polygon") then
      coordinates <- Py.getitem geometry "coordinates" ;;
      ring <- Py.getindex coordinates 0 ;;
      '(x, y) <- polygon_centroid L ring ;;
      props <- props_from item "properties" ;;
      Ok (STuple (JNum y, JNum x) props geometry)
    else Ok SNone
  else
    coordinates <- Py.getitem geometry "coordinates" ;;
    c1 <- Py.getindex coordinates 1 ;;
    c0 <- Py.getindex coordinates 0 ;;
    has_tags <- Py.contains "tags" item ;;
    let _properties := if has_tags then "tags" else "properties" in
    props <- props_from item _properties ;;
    Ok (STuple (c1, c0) props JNull).

Definition add_item (self : DatasetInMemory) (item : json) : exc DatasetInMemory :=
  s <- normalize item ;;
  Ok {| alias := alias self;
        index := (index self + 1)%Z;
        items := items self ++ [s] |}.

(** ** GeojsonCompare._load_geojson, on the parsed document *)

Fixpoint add_items (data : DatasetInMemory) (feats : list json) : exc DatasetInMemory :=
  match feats with
  | [] => Ok data
  | feat :: rest => data' <- add_item data feat ;; add_items data' rest
  end.

Definition _load_geojson (jdict : json) (alias : string) : exc DatasetInMemory :=
  let data := DatasetInMemory_init alias in
  has_elements <- Py.contains "elements" jdict ;;
  let container := if has_elements then "elements" else "features" in
  arr <- Py.getitem jdict container ;;
  feats <- Py.iter arr ;;
  add_items data feats.

End Normalizer.

(* ------------------------------------------------------------------ *)
(** ** GeojsonCompare: the matching engine *)

Definition MATCH_EXACT : Z := 1.
Definition MATCH_NEAR : Z := 3.

(** A match-table entry is [None] or the tuple
    [(index_b, kind, dist, skiped)]. *)
Definition entry : Type := nat * Z * Q * option (list string).

(** [p == q] on two coordinate tuples *)
Definition coords_eqb (p q : json * json) : bool :=
  Py.eqb (fst p) (fst q) && Py.eqb (snd p) (snd q).

(** [x == y] on two stored tuples *)
Definition stored_eqb (x y : stored) : bool :=
  match x, y with
  | STuple c p g, STuple c' p' g' => coords_eqb c c' && Py.eqb p p' && Py.eqb g g'
  | SFalse, SFalse => true
  | SNone, SNone => true
  | _, _ => false
  end.

(** [f"B{j}"] *)
Definition label_b (j : nat) : string := "B" ++ Py.str_of_nat j.

(** [sorted(candidates, key=lambda tup: tup[0])]: the stable sort by
    distance, as an insertion sort that puts an element before the
    elements to its right it does not exceed. *)
Fixpoint insert_by_dist (x : Q * nat) (l : list (Q * nat)) : list (Q * nat) :=
  match l with
  | [] => [x]
  | y :: l' =>
      if Qle_bool (fst x) (fst y) then x :: l else y :: insert_by_dist x l'
  end.

Definition sorted_by_dist (l : list (Q * nat)) : list (Q * nat) :=
  fold_right insert_by_dist [] l.

(** The variables the loop over B updates. *)
Record scan_state : Type := {
  st_matrix : list (option entry);
  st_found : bool;
  st_candidates : list (Q * nat)
}.

Section Engine.

Variable L : Externals.
Variable distance_okay : Z.

(** one pass of the body of [for index_b in range(0, len(self.b.items))] *)
Definition scan_step (item_a : stored) (coords_a : json * json)
    (st : scan_state) (index_b : nat) (item_b : stored) : exc scan_state :=
  match item_b with
  | STuple coords_b _ _ =>
      if stored_eqb item_a item_b then
        Ok {| st_matrix := st_matrix st ++ [Some (index_b, MATCH_EXACT, 0%Q, None)];
              st_found := true;
              st_candidates := st_candidates st |}
      else if coords_eqb coords_a coords_b then
        Ok {| st_matrix := st_matrix st ++ [Some (index_b, MATCH_EXACT, 0%Q, None)];
              st_found := true;
              st_candidates := st_candidates st |}
      else
        dist <- haversine L coords_a coords_b ;;
        if Qle_bool dist (inject_Z distance_okay) then
          Ok {| st_matrix := st_matrix st;
                st_found := true;
                st_candidates := st_candidates st ++ [(dist, index_b)] |}
        else Ok st
  | _ => Ok st
  end.

(** the loop over B, from [index_b] on *)
Fixpoint scan (item_a : stored) (coords_a : json * json)
    (bs : list stored) (index_b : nat) (st : scan_state) : exc scan_state :=
  match bs with
  | [] => Ok st
  | item_b :: bs' =>
      st' <- scan_step item_a coords_a st index_b item_b ;;
      scan item_a coords_a bs' (S index_b) st'
  end.

(** the [skiped] labels of a candidate list *)
Definition skiped_of (candidates : list (Q * nat)) : option (list string) :=
  if (1 <? List.length candidates)%nat
  then Some (map (fun c => label_b (snd c)) candidates)
  else None.

(** what follows the loop over B: the NEAR entry, or [None] *)
Definition conclude (st : scan_state) : exc (list (option entry)) :=
  m1 <- (if st_found st && (0 <? List.length (st_candidates st))%nat then
           match sorted_by_dist (st_candidates st) with
           | (dist, index_b) :: _ =>
               Ok (st_matrix st
                     ++ [Some (index_b, MATCH_NEAR, dist, skiped_of (st_candidates st))])
           | [] => Raise IndexError
           end
         else Ok (st_matrix st)) ;;
  if negb (st_found st) then Ok (m1 ++ [None]) else Ok m1.

(** one pass of the body of [for index_a in range(0, len(self.a.items))];
    for a falsy item [found] stays [False], so [candidates] is not read *)
Definition compute_iter (b_items : list stored) (matrix : list (option entry))
    (item_a : stored) : exc (list (option entry)) :=
  let st0 := {| st_matrix := matrix; st_found := false; st_candidates := [] |} in
  st <- match item_a with
        | STuple coords_a _ _ => scan item_a coords_a b_items 0 st0
        | _ => Ok st0
        end ;;
  conclude st.

(** the loop over A *)
Fixpoint compute_from (a_items b_items : list stored)
    (matrix : list (option entry)) : exc (list (option entry)) :=
  match a_items with
  | [] => Ok matrix
  | item_a :: rest =>
      matrix' <- compute_iter b_items matrix item_a ;;
      compute_from rest b_items matrix'
  end.

(** [compute()], called once on the empty [self.matrix] *)
Definition compute (a_items b_items : list stored) : exc (list (option entry)) :=
  compute_from a_items b_items [].

End Engine.

Record GeojsonCompare : Type := {
  distance_okay : Z;
  ds_a : DatasetInMemory;
  ds_b : DatasetInMemory;
  matrix : list (option entry)
}.

(** [GeojsonCompare.__init__] on the two parsed documents *)
Definition GeojsonCompare_init (L : Externals) (doc_a doc_b : json)
    (tolerance : Z) : exc GeojsonCompare :=
  da <- _load_geojson L doc_a "A" ;;
  db <- _load_geojson L doc_b "B" ;;
  m <- compute L tolerance (items da) (items db) ;;
  Ok {| distance_okay := tolerance; ds_a := da; ds_b := db; matrix := m |}.

(* ------------------------------------------------------------------ *)
(** ** GeojsonCompare: the renderers *)

(** [l[i]] on a Python list *)
Definition list_get {A : Type} (l : list A) (i : nat) : exc A :=
  match nth_error l i with
  | Some x => Ok x
  | None => Raise IndexError
  end.

(** [s[0]], [s[1]], [s[2]] on a stored value: [False] and [None] are
    not subscriptable *)
Definition sub0 (s : stored) : exc (json * json) :=
  match s with STuple c _ _ => Ok c | _ => Raise TypeError end.

Definition sub1 (s : stored) : exc json :=
  match s with STuple _ p _ => Ok p | _ => Raise TypeError end.

Definition sub2 (s : stored) : exc json :=
  match s with STuple _ _ g => Ok g | _ => Raise TypeError end.

(** [d[k] = v] on the items of a dict *)
Fixpoint dict_set (d : list (string * json)) (k : string) (v : json)
    : list (string * json) :=
  match d with
  | [] => [(k, v)]
  | (k', v') :: d' =>
      if String.eqb k k' then (k, v) :: d' else (k', v') :: dict_set d' k v
  end.

(** [for key, value in src: d[prefix + key] = value] *)
Definition copy_prefixed (prefix : string) (src d : list (string * json))
    : list (string * json) :=
  fold_left (fun acc kv => dict_set acc (prefix ++ fst kv) (snd kv)) src d.

(** a coordinate tuple as the value [json.dumps] writes for it *)
Definition tuple_value (c : json * json) : json := JArr [fst c; snd c].

Definition entry_index (e : entry) : nat := fst (fst (fst e)).
Definition entry_kind (e : entry) : Z := snd (fst (fst e)).
Definition entry_dist (e : entry) : Q := snd (fst e).
Definition entry_skiped (e : entry) : option (list string) := snd e.

(** truth value of [_matrix[3]] *)
Definition skiped_truthy (s : option (list string)) : bool :=
  match s with
  | Some (_ :: _) => true
  | _ => false
  end.

Definition skiped_labels (s : option (list string)) : list string :=
  match s with Some l => l | None => [] end.

Section Renderers.

Variable L : Externals.
Variables a_items b_items : list stored.
Variable matrix : list (option entry).

(** one pass of the loop of [diff_geojson_full]: the feature [res] *)
Definition diff_feature (index_a : nat) : exc json :=
  _item_a <- list_get a_items index_a ;;
  _matrix <- list_get matrix index_a ;;
  let final_properties : list (string * json) := [] in
  g <- sub2 _item_a ;;
  final_geometry <-
    (if negb (Py.is_none g) then Ok g
     else c <- sub0 _item_a ;;
          Ok (JObj [("type", JStr "Point"); ("coordinates", tuple_value c)])) ;;
  pa <- sub1 _item_a ;;
  final_properties <-
    (if negb (Py.is_none pa) then
       its <- Py.items pa ;; Ok (copy_prefixed "a." its final_properties)
     else Ok final_properties) ;;
  final_properties <-
    match _matrix with
    | Some e =>
        item_b <- list_get b_items (entry_index e) ;;
        pb <- sub1 item_b ;;
        if Py.truthy pb then
          its <- Py.items pb ;; Ok (copy_prefixed "b." its final_properties)
        else Ok final_properties
    | None => Ok final_properties
    end ;;
  let final_properties :=
    match _matrix with
    | Some e =>
        let fp := dict_set final_properties "a->b.distance"
                    (JNum (py_round2 L (entry_dist e))) in
        if skiped_truthy (entry_skiped e)
        then dict_set fp "a->b.near"
               (JStr (Py.join " " (skiped_labels (entry_skiped e))))
        else fp
    | None => dict_set final_properties "a->b.distance" (JNum (-1))
    end in
  Ok (JObj [("geometry", final_geometry);
            ("properties", JObj final_properties);
            ("type", JStr "Feature")]).

(** the loop of [diff_geojson_full] over [n] indices from [index_a] on *)
Fixpoint diff_features (n index_a : nat) (features : list json)
    : exc (list json) :=
  match n with
  | O => Ok features
  | S n' =>
      res <- diff_feature index_a ;;
      diff_features n' (S index_a) (features ++ [res])
  end.

Definition diff_geojson_full : exc json :=
  features <- diff_features (List.length a_items) 0 [] ;;
  Ok (JObj [("type", JStr "FeatureCollection"); ("features", JArr features)]).

Definition _short_title (properties : json) : exc string :=
  if negb (Py.truthy properties) then Ok "" else
  n <- Py.len_keys properties ;;
  if (n =? 0)%nat then Ok "" else
  let result := JStr "" in
  has_nome <- Py.contains "nome" properties ;;
  result <- (if has_nome then Py.getitem properties "nome" else Ok result) ;;
  has_name <- Py.contains "name" properties ;;
  result <- (if has_name then Py.getitem properties "name" else Ok result) ;;
  has_ref <- Py.contains "ref" properties ;;
  result <-
    (if has_ref then
       ref <- Py.getitem properties "ref" ;;
       match result with
       | JStr s => Ok (JStr (s ++ " (" ++ py_str L ref ++ ")"))
       | _ => Raise TypeError
       end
     else Ok result) ;;
  match result with
  | JStr s => Ok (py_strip L s)
  | _ => Raise AttributeError
  end.

Definition header : list json :=
  map JStr ["uid_a"; "uid_b"; "id_a"; "id_b"; "distance_ab";
            "latitude_a"; "longitude_a"; "latitude_b"; "longitude_b";
            "desc_a"; "desc_b"; "near_a"].

(** one pass of the loop of [summary_tabular]: the row appended *)
Definition tabular_row (index_a : nat) : exc (list json) :=
  _item_a <- list_get a_items index_a ;;
  _matrix <- list_get matrix index_a ;;
  let uid_a := JStr ("A" ++ Py.str_of_nat index_a) in
  let uid_b := match _matrix with
               | None => JStr ""
               | Some e => JStr (label_b (entry_index e))
               end in
  pa <- sub1 _item_a ;;
  id_a <- (if negb (Py.truthy pa) then Ok (JStr "") else
           has_id <- Py.contains "id" pa ;;
           if negb has_id then Ok (JStr "") else Py.getitem pa "id") ;;
  id_b <- match _matrix with
          | Some e =>
              item_b <- list_get b_items (entry_index e) ;;
              pb <- sub1 item_b ;;
              if Py.truthy pb then
                has_id <- Py.contains "id" pb ;;
                if has_id then Py.getitem pb "id" else Ok (JStr "")
              else Ok (JStr "")
          | None => Ok (JStr "")
          end ;;
  let distance_ab := match _matrix with
                     | None => JNum (-1)
                     | Some e => JNum (entry_dist e)
                     end in
  latitude_a <- (if negb (stored_truthy _item_a) then Ok (JStr "")
                 else c <- sub0 _item_a ;; Ok (snd c)) ;;
  longitude_a <- (if negb (stored_truthy _item_a) then Ok (JStr "")
                  else c <- sub0 _item_a ;; Ok (fst c)) ;;
  latitude_b <- match _matrix with
                | None => Ok (JStr "")
                | Some e =>
                    item_b <- list_get b_items (entry_index e) ;;
                    c <- sub0 item_b ;; Ok (snd c)
                end ;;
  longitude_b <- match _matrix with
                 | None => Ok (JStr "")
                 | Some e =>
                     item_b <- list_get b_items (entry_index e) ;;
                     c <- sub0 item_b ;; Ok (fst c)
                 end ;;
  desc_a <- (if negb (stored_truthy _item_a) then Ok (JStr "")
             else item <- list_get a_items index_a ;;
                  p <- sub1 item ;;
                  t <- _short_title p ;; Ok (JStr t)) ;;
  desc_b <- match _matrix with
            | None => Ok (JStr "")
            | Some e =>
                item_b <- list_get b_items (entry_index e) ;;
                p <- sub1 item_b ;;
                t <- _short_title p ;; Ok (JStr t)
            end ;;
  let near_a := match _matrix with
                | None => JStr ""
                | Some e =>
                    if negb (skiped_truthy (entry_skiped e)) then JStr ""
                    else JStr (Py.join " " (skiped_labels (entry_skiped e)))
                end in
  Ok [uid_a; uid_b; id_a; id_b; distance_ab;
      latitude_a; longitude_a; latitude_b; longitude_b;
      desc_a; desc_b; near_a].

(** the loop of [summary_tabular] over [n] indices from [index_a] on *)
Fixpoint tabular_rows (n index_a : nat) (data : list (list json))
    : exc (list (list json)) :=
  match n with
  | O => Ok data
  | S n' =>
      row <- tabular_row index_a ;;
      tabular_rows n' (S index_a) (data ++ [row])
  end.

Definition summary_tabular : exc (list (list json)) :=
  data <- tabular_rows (List.length a_items) 0 [] ;;
  Ok (header :: data).

End Renderers.

(* ------------------------------------------------------------------ *)
(** ** What one scan of B computes *)

Definition nonempty {A : Type} (l : list A) : bool :=
  match l with
  | [] => false
  | _ :: _ => true
  end.

(** the two EXACT tests of the loop body, for a truthy B item *)
Definition exact_test (item_a : stored) (coords_a : json * json)
    (item_b : stored) : bool :=
  match item_b with
  | STuple coords_b _ _ => stored_eqb item_a item_b || coords_eqb coords_a coords_b
  | _ => false
  end.

Definition exact_entry (j : nat) : option entry :=
  Some (j, MATCH_EXACT, 0%Q, None).

Section ScanDefs.

Variable L : Externals.
Variable tol : Z.
Variable item_a : stored.
Variable coords_a : json * json.

(** the B indices, from [k] on, that pass an EXACT test *)
Fixpoint exact_hits (bs : list stored) (k : nat) : list nat :=
  match bs with
  | [] => []
  | item_b :: bs' =>
      if exact_test item_a coords_a item_b
      then k :: exact_hits bs' (S k)
      else exact_hits bs' (S k)
  end.

(** the distance under which a B item becomes a NEAR candidate *)
Definition near_dist (item_b : stored) : option Q :=
  match item_b with
  | STuple coords_b _ _ =>
      if exact_test item_a coords_a item_b then None
      else match haversine L coords_a coords_b with
           | Ok d => if Qle_bool d (inject_Z tol) then Some d else None
           | Raise _ => None
           end
  | _ => None
  end.

Fixpoint near_hits (bs : list stored) (k : nat) : list (Q * nat) :=
  match bs with
  | [] => []
  | item_b :: bs' =>
      match near_dist item_b with
      | Some d => (d, k) :: near_hits bs' (S k)
      | None => near_hits bs' (S k)
      end
  end.

(** [haversine] returns on every B item it is called on *)
Definition hav_defined (bs : list stored) : Prop :=
  forall cb pb gb,
    In (STuple cb pb gb) bs ->
    exact_test item_a coords_a (STuple cb pb gb) = false ->
    exists d, haversine L coords_a cb = Ok d.

Definition scan_result (bs : list stored) (k : nat) (st : scan_state) : scan_state :=
  {| st_matrix := st_matrix st ++ map exact_entry (exact_hits bs k);
     st_found := st_found st || nonempty (exact_hits bs k) || nonempty (near_hits bs k);
     st_candidates := st_candidates st ++ near_hits bs k |}.

End ScanDefs.

Section RowDefs.

Variable L : Externals.
Variable tol : Z.
Variable b_items : list stored.

(** the NEAR entry of a candidate list *)
Definition near_entry (cands : list (Q * nat)) : list (option entry) :=
  match sorted_by_dist cands with
  | (d, j) :: _ => [Some (j, MATCH_NEAR, d, skiped_of cands)]
  | [] => []
  end.

(** the entries one A item contributes to the table *)
Definition row_of (item_a : stored) : list (option entry) :=
  match item_a with
  | STuple ca _ _ =>
      let ex := exact_hits item_a ca b_items 0 in
      let nc := near_hits L tol item_a ca b_items 0 in
      map exact_entry ex ++ near_entry nc
        ++ (if nonempty ex || nonempty nc then [] else [None])
  | _ => [None]
  end.

Definition row_defined (item_a : stored) : Prop :=
  match item_a with
  | STuple ca _ _ => hav_defined L item_a ca b_items
  | _ => True
  end.

End RowDefs.

(** [props] as [add_item] stores it: [None] or a dict *)
Definition props_ok (s : stored) : Prop :=
  match s with
  | STuple _ p _ => p = JNull \/ exists f, p = JObj f
  | _ => True
  end.

Definition point_geometry (c : json * json) : json :=
  JObj [("type", JStr "Point"); ("coordinates", JArr [fst c; snd c])].

(** the [props] taken from a container value that is present: the
    value itself when it is truthy (it must then be a dict), [None]
    when it is falsy *)
Definition props_of_value (v : json) : exc json :=
  if Py.truthy v then
    match v with
    | JObj _ => Ok v
    | _ => Raise AttributeError
    end
  else Ok JNull.

(** the dataset built from the value under the container key *)
Definition load_from (L : Externals) (arr : json) (alias : string)
    : exc DatasetInMemory :=
  feats <- Py.iter arr ;; add_items L (DatasetInMemory_init alias) feats.

(* ------------------------------------------------------------------ *)
(** ** The claims that fail, as they are stated *)

(** The reading of the table under which the LAST B record that passes
    an EXACT test supplies the entry at the A record's index. *)
Definition last_exact_hit_kept (L : Externals) (tol : Z)
    (a_items b_items : list stored) : Prop :=
  forall m i ca pa ga j item_b,
    compute L tol a_items b_items = Ok m ->
    nth_error a_items i = Some (STuple ca pa ga) ->
    nth_error b_items j = Some item_b ->
    exact_test (STuple ca pa ga) ca item_b = true ->
    (forall j' item', (j < j')%nat -> nth_error b_items j' = Some item' ->
                      exact_test (STuple ca pa ga) ca item' = false) ->
    nth_error m i = Some (exact_entry j).

(** The reading under which both renderers get past a placeholder. *)
Definition renderers_survive_placeholders (L : Externals) (gc : GeojsonCompare) : Prop :=
  (exists feats,
      diff_geojson_full L (items (ds_a gc)) (items (ds_b gc)) (matrix gc)
        = Ok (JObj [("type", JStr "FeatureCollection"); ("features", JArr feats)]) /\
      List.length feats = List.length (items (ds_a gc))) /\
  (exists rows,
      summary_tabular L (items (ds_a gc)) (items (ds_b gc)) (matrix gc)
        = Ok (header :: rows) /\
      List.length rows = List.length (items (ds_a gc))).

(* ------------------------------------------------------------------ *)
(** ** Sample data *)

Module Sample.

(** [haversine] for two points on the equator or on one meridian:
    the arc between them, at 111195 m per degree. *)
Definition arc (p q : json * json) : exc Q :=
  match p, q with
  | (JNum lat1, JNum lng1), (JNum lat2, JNum lng2) =>
      Ok (111195 * (Qabs (lat1 - lat2) + Qabs (lng1 - lng2)))%Q
  | _, _ => Raise TypeError
  end.

(** stand-ins that agree with the libraries on the values used below:
    no polygons, strings without surrounding blanks, distances with at
    most two decimals *)
Definition externals : Externals :=
  {| haversine := arc;
     polygon_centroid := fun _ => Raise ValueError;
     py_str := fun v => match v with JStr s => s | _ => "" end;
     py_strip := fun s => s;
     py_round2 := fun q => q |}.

(** a Point feature at (longitude, latitude), with further members *)
Definition point (lng lat : Q) (more : list (string * json)) : json :=
  JObj ([("type", JStr "Feature");
         ("geometry", JObj [("type", JStr "Point");
                            ("coordinates", JArr [JNum lng; JNum lat])])]
          ++ more).

Definition collection (feats : list json) : json :=
  JObj [("type", JStr "FeatureCollection"); ("features", JArr feats)].

(** the stored form of [point lng lat []] *)
Definition at_ (lat lng : Q) : stored := STuple (JNum lat, JNum lng) JNull JNull.

End Sample.

(* ------------------------------------------------------------------ *)
(** ** Sample polygons *)

Module Shapes.

(** the vertices of a ring of [[x, y]] positions *)
Fixpoint vertices (ring : list json) : option (list (Q * Q)) :=
  match ring with
  | [] => Some []
  | JArr (JNum x :: JNum y :: _) :: rest =>
      match vertices rest with
      | Some vs => Some ((x, y) :: vs)
      | None => None
      end
  | _ => None
  end.

(** the sums over the edges from [p] along [vs], closing at [first]:
    of the cross products, and of the cross products weighted by the
    coordinate sums *)
Fixpoint edge_sums (first p : Q * Q) (vs : list (Q * Q)) : Q * Q * Q :=
  let q := match vs with [] => first | v :: _ => v end in
  let cross := (fst p * snd q - fst q * snd p)%Q in
  let here := (cross, (fst p + fst q) * cross, (snd p + snd q) * cross)%Q in
  match vs with
  | [] => here
  | v :: vs' =>
      let '(a, cx, cy) := edge_sums first v vs' in
      let '(a0, cx0, cy0) := here in
      (a0 + a, cx0 + cx, cy0 + cy)%Q
  end.

(** the centroid of the polygon a ring bounds, by the area-weighted
    formula; stands in for shapely on rings with a non-zero area *)
Definition centroid (ring : json) : exc (Q * Q) :=
  match ring with
  | JArr l =>
      match vertices l with
      | Some (p :: vs) =>
          let '(a2, cx, cy) := edge_sums p p vs in
          if Qeq_bool a2 0 then Raise ValueError
          else Ok (Qred (cx / (3 * a2)), Qred (cy / (3 * a2)))%Q
      | _ => Raise ValueError
      end
  | _ => Raise TypeError
  end.

Definition externals : Externals :=
  {| haversine := Sample.arc;
     polygon_centroid := centroid;
     py_str := py_str Sample.externals;
     py_strip := py_strip Sample.externals;
     py_round2 := py_round2 Sample.externals |}.

(** the square with corners (0, 0) and (2, 2) *)
Definition square : json :=
  JArr [JArr [JNum 0; JNum 0]; JArr [JNum 2; JNum 0]; JArr [JNum 2; JNum 2];
        JArr [JNum 0; JNum 2]; JArr [JNum 0; JNum 0]].

Definition square_geometry : list (string * json) :=
  [("type", JStr "Polygon"); ("coordinates", JArr [square])].

End Shapes.

(* ------------------------------------------------------------------ *)
(** ** What the Diff Renderer writes *)

(** the items of stored attributes: none for [None] *)
Definition attrs (p : json) : list (string * json) :=
  match p with
  | JObj f => f
  | _ => []
  end.

(** the attributes of the B item an entry names *)
Definition matched_attrs (b_items : list stored) (me : option entry)
    : list (string * json) :=
  match me with
  | Some e =>
      match nth_error b_items (entry_index e) with
      | Some (STuple _ pb _) => attrs pb
      | _ => []
      end
  | None => []
  end.

(** [final_properties] at the end of one pass of [diff_geojson_full] *)
Definition final_properties_of (L : Externals) (fa fb : list (string * json))
    (me : option entry) : list (string * json) :=
  let fp := copy_prefixed "b." fb (copy_prefixed "a." fa []) in
  match me with
  | Some e =>
      let fp := dict_set fp "a->b.distance" (JNum (py_round2 L (entry_dist e))) in
      if skiped_truthy (entry_skiped e)
      then dict_set fp "a->b.near"
             (JStr (Py.join " " (skiped_labels (entry_skiped e))))
      else fp
  | None => dict_set fp "a->b.distance" (JNum (-1))
  end.

(** an entry of the table names a valid B item whose attributes are
    [None] or a dict *)
Definition entry_ok (b_items : list stored) (me : option entry) : Prop :=
  forall e, me = Some e ->
    exists cb pb gb,
      nth_error b_items (entry_index e) = Some (STuple cb pb gb) /\
      props_ok (STuple cb pb gb).

(** the title value [_short_title] works on: [name], else [nome], else
    the empty string *)
Definition title_value (f : list (string * json)) : json :=
  match Py.assoc "name" f with
  | Some v => v
  | None =>
      match Py.assoc "nome" f with
      | Some v => v
      | None => JStr ""
      end
  end.

(* ------------------------------------------------------------------ *)
(** ** Proof steps *)

Ltac bind_inv H :=
  repeat match type of H with
         | bind ?x _ = Ok _ =>
             let E := fresh "E" in
             destruct x eqn:E; cbn [bind] in H; [|discriminate H]
         end.

(* ------------------------------------------------------------------ *)
(** ** The scan of B *)

Section ScanFacts.

Variable L : Externals.
Variable tol : Z.
Variable item_a : stored.
Variable coords_a : json * json.

Lemma scan_step_exact (st : scan_state) (k : nat) (item_b : stored) :
  exact_test item_a coords_a item_b = true ->
  scan_step L tol item_a coords_a st k item_b =
    Ok {| st_matrix := st_matrix st ++ [exact_entry k];
          st_found := true;
          st_candidates := st_candidates st |}.
Proof.
  destruct item_b as [| |cb pb gb]; simpl; try discriminate.
  intros H. destruct (stored_eqb item_a (STuple cb pb gb)).
  - reflexivity.
  - simpl in H. rewrite H. reflexivity.
Qed.

Lemma scan_step_other (st : scan_state) (k : nat) (cb : json * json) (pb gb : json) :
  exact_test item_a coords_a (STuple cb pb gb) = false ->
  scan_step L tol item_a coords_a st k (STuple cb pb gb) =
    (dist <- haversine L coords_a cb ;;
     if Qle_bool dist (inject_Z tol) then
       Ok {| st_matrix := st_matrix st;
             st_found := true;
             st_candidates := st_candidates st ++ [(dist, k)] |}
     else Ok st).
Proof.
  simpl. intros H. apply orb_false_elim in H. destruct H as [H1 H2].
  rewrite H1, H2. reflexivity.
Qed.

Lemma scan_state_eta (st : scan_state) :
  {| st_matrix := st_matrix st; st_found := st_found st;
     st_candidates := st_candidates st |} = st.
Proof. destruct st; reflexivity. Qed.

Lemma hav_defined_cons (item_b : stored) (bs : list stored) :
  hav_defined L item_a coords_a (item_b :: bs) ->
  hav_defined L item_a coords_a bs.
Proof. intros H cb pb gb Hin. apply H. right. exact Hin. Qed.

(** the scan returns exactly when every distance it asks for exists *)
Lemma scan_defined (bs : list stored) :
  forall k st, hav_defined L item_a coords_a bs ->
    scan L tol item_a coords_a bs k st = Ok (scan_result L tol item_a coords_a bs k st).
Proof.
  induction bs as [|item_b bs IH]; intros k st Hd.
  - unfold scan_result. simpl. rewrite app_nil_r, app_nil_r.
    rewrite !orb_false_r. rewrite scan_state_eta. reflexivity.
  - simpl scan.
    destruct (exact_test item_a coords_a item_b) eqn:Hex.
    + rewrite (scan_step_exact st k item_b Hex). simpl bind.
      rewrite IH by (eapply hav_defined_cons; eauto).
      unfold scan_result. simpl. rewrite Hex.
      assert (Hn : near_dist L tol item_a coords_a item_b = None).
      { destruct item_b; simpl in *; try reflexivity. rewrite Hex. reflexivity. }
      rewrite Hn. simpl. rewrite <- app_assoc. simpl.
      rewrite orb_true_r. reflexivity.
    + destruct item_b as [| |cb pb gb].
      * cbn [scan_step bind]. rewrite IH by (eapply hav_defined_cons; eauto).
        unfold scan_result. simpl. reflexivity.
      * cbn [scan_step bind]. rewrite IH by (eapply hav_defined_cons; eauto).
        unfold scan_result. simpl. reflexivity.
      * rewrite (scan_step_other st k cb pb gb Hex).
        destruct (Hd cb pb gb (or_introl eq_refl) Hex) as [d Hh].
        rewrite Hh. simpl bind.
        destruct (Qle_bool d (inject_Z tol)) eqn:Hle; cbn [bind].
        -- rewrite IH by (eapply hav_defined_cons; eauto).
           unfold scan_result.
           cbn [exact_hits near_hits near_dist st_matrix st_found st_candidates].
           rewrite Hex, Hh, Hle. cbn [nonempty].
           rewrite <- app_assoc. simpl app. rewrite !orb_true_r. reflexivity.
        -- rewrite IH by (eapply hav_defined_cons; eauto).
           unfold scan_result.
           cbn [exact_hits near_hits near_dist st_matrix st_found st_candidates].
           rewrite Hex, Hh, Hle. reflexivity.
Qed.

Lemma scan_returns (bs : list stored) :
  forall k st st',
    scan L tol item_a coords_a bs k st = Ok st' ->
    hav_defined L item_a coords_a bs.
Proof.
  induction bs as [|item_b bs IH]; intros k st st' H.
  - intros cb pb gb [].
  - simpl in H.
    destruct (scan_step L tol item_a coords_a st k item_b) as [st1|e] eqn:Hs;
      simpl in H; [|discriminate].
    intros cb pb gb [Heq|Hin] Hex.
    + subst item_b. rewrite (scan_step_other st k cb pb gb Hex) in Hs.
      destruct (haversine L coords_a cb) as [d|e]; [eauto|discriminate].
    + exact (IH _ _ _ H cb pb gb Hin Hex).
Qed.

Lemma scan_spec (bs : list stored) (k : nat) (st st' : scan_state) :
  scan L tol item_a coords_a bs k st = Ok st' ->
  st' = scan_result L tol item_a coords_a bs k st.
Proof.
  intros H. pose proof (scan_returns _ _ _ _ H) as Hd.
  rewrite (scan_defined bs k st Hd) in H. congruence.
Qed.

(** *** The hits, read off the B items *)

Lemma exact_test_tuple (item_b : stored) :
  exact_test item_a coords_a item_b = true ->
  exists cb pb gb, item_b = STuple cb pb gb.
Proof. destruct item_b; simpl; try discriminate. eauto. Qed.

Lemma near_dist_tuple (item_b : stored) (d : Q) :
  near_dist L tol item_a coords_a item_b = Some d ->
  exists cb pb gb,
    item_b = STuple cb pb gb /\
    exact_test item_a coords_a item_b = false /\
    haversine L coords_a cb = Ok d /\
    Qle_bool d (inject_Z tol) = true.
Proof.
  destruct item_b as [| |cb pb gb]; try discriminate.
  unfold near_dist.
  destruct (exact_test item_a coords_a (STuple cb pb gb)) eqn:Hex; [discriminate|].
  destruct (haversine L coords_a cb) as [d'|e] eqn:Hh; [|discriminate].
  destruct (Qle_bool d' (inject_Z tol)) eqn:Hle; [|discriminate].
  intros H. injection H as H. subst d'.
  exists cb, pb, gb. repeat split; assumption.
Qed.

Lemma exact_hits_In (bs : list stored) :
  forall k j,
    In j (exact_hits item_a coords_a bs k) <->
    exists j0 item_b,
      j = (k + j0)%nat /\ nth_error bs j0 = Some item_b /\
      exact_test item_a coords_a item_b = true.
Proof.
  induction bs as [|item_b bs IH]; intros k j; simpl.
  - split; [intros []|]. intros (j0 & x & _ & H & _). destruct j0; discriminate.
  - split.
    + intros H.
      assert (Hc : (j = k /\ exact_test item_a coords_a item_b = true)
                   \/ In j (exact_hits item_a coords_a bs (S k))).
      { destruct (exact_test item_a coords_a item_b); [|right; exact H].
        destruct H as [H|H]; [left; split; congruence|right; exact H]. }
      destruct Hc as [[-> Hex]|Hin].
      * exists 0%nat, item_b. repeat split; [lia|exact Hex].
      * apply IH in Hin. destruct Hin as (j0 & x & -> & Hn & Hex).
        exists (S j0), x. repeat split; [lia|exact Hn|exact Hex].
    + intros (j0 & x & -> & Hn & Hex). destruct j0 as [|j0].
      * simpl in Hn. injection Hn as ->. rewrite Hex. left. lia.
      * simpl in Hn.
        assert (Hin : In (k + S j0)%nat (exact_hits item_a coords_a bs (S k))).
        { apply IH. exists j0, x. repeat split; [lia|exact Hn|exact Hex]. }
        destruct (exact_test item_a coords_a item_b); [right|]; exact Hin.
Qed.

Lemma exact_hits_none (bs : list stored) :
  forall k,
    (forall j item_b, nth_error bs j = Some item_b ->
                      exact_test item_a coords_a item_b = false) ->
    exact_hits item_a coords_a bs k = [].
Proof.
  intros k H. destruct (exact_hits item_a coords_a bs k) as [|j js] eqn:He; [reflexivity|].
  assert (Hin : In j (exact_hits item_a coords_a bs k)) by (rewrite He; left; reflexivity).
  apply exact_hits_In in Hin. destruct Hin as (j0 & x & _ & Hn & Hex).
  rewrite (H _ _ Hn) in Hex. discriminate.
Qed.

Lemma exact_hits_first (bs : list stored) :
  forall k j item_b,
    nth_error bs j = Some item_b ->
    exact_test item_a coords_a item_b = true ->
    (forall j' item', (j' < j)%nat -> nth_error bs j' = Some item' ->
                      exact_test item_a coords_a item' = false) ->
    exists js, exact_hits item_a coords_a bs k = (k + j)%nat :: js.
Proof.
  induction bs as [|x bs IH]; intros k j item_b Hn Hex Hbefore.
  - destruct j; discriminate.
  - destruct j as [|j]; simpl in Hn.
    + injection Hn as ->. simpl. rewrite Hex.
      rewrite Nat.add_0_r. eauto.
    + simpl. rewrite (Hbefore 0%nat x) by (simpl; auto; lia).
      destruct (IH (S k) j item_b Hn Hex) as [js Hjs].
      * intros j' item' Hlt Hn'. apply (Hbefore (S j') item'); [lia|exact Hn'].
      * exists js. rewrite Hjs. f_equal. lia.
Qed.

Lemma near_hits_In (bs : list stored) :
  forall k d j,
    In (d, j) (near_hits L tol item_a coords_a bs k) <->
    exists j0 item_b,
      j = (k + j0)%nat /\ nth_error bs j0 = Some item_b /\
      near_dist L tol item_a coords_a item_b = Some d.
Proof.
  induction bs as [|item_b bs IH]; intros k d j; simpl.
  - split; [intros []|]. intros (j0 & x & _ & H & _). destruct j0; discriminate.
  - split.
    + intros H.
      assert (Hc : (j = k /\ near_dist L tol item_a coords_a item_b = Some d)
                   \/ In (d, j) (near_hits L tol item_a coords_a bs (S k))).
      { destruct (near_dist L tol item_a coords_a item_b) as [d'|]; [|right; exact H].
        destruct H as [H|H]; [left; split; congruence|right; exact H]. }
      destruct Hc as [[-> Hnd]|Hin].
      * exists 0%nat, item_b. repeat split; [lia|exact Hnd].
      * apply IH in Hin. destruct Hin as (j0 & x & -> & Hn & Hnd).
        exists (S j0), x. repeat split; [lia|exact Hn|exact Hnd].
    + intros (j0 & x & -> & Hn & Hnd). destruct j0 as [|j0].
      * simpl in Hn. injection Hn as ->. rewrite Hnd. left. f_equal. lia.
      * simpl in Hn.
        assert (Hin : In (d, (k + S j0)%nat) (near_hits L tol item_a coords_a bs (S k))).
        { apply IH. exists j0, x. repeat split; [lia|exact Hn|exact Hnd]. }
        destruct (near_dist L tol item_a coords_a item_b); [right|]; exact Hin.
Qed.

(** candidates are appended in ascending B-index order *)
Lemma near_hits_ascending (bs : list stored) :
  forall k l1 x l2,
    near_hits L tol item_a coords_a bs k = l1 ++ x :: l2 ->
    forall y, In y l2 -> (snd x < snd y)%nat.
Proof.
  induction bs as [|item_b bs IH]; intros k l1 x l2 H y Hy.
  - destruct l1; discriminate.
  - simpl in H. destruct (near_dist L tol item_a coords_a item_b) as [d|].
    + destruct l1 as [|z l1]; simpl in H.
      * injection H as <- <-. simpl.
        destruct y as [dy jy]. apply near_hits_In in Hy.
        destruct Hy as (j0 & _ & -> & _). simpl. lia.
      * injection H as _ H. exact (IH _ _ _ _ H y Hy).
    + exact (IH _ _ _ _ H y Hy).
Qed.

End ScanFacts.

(* ------------------------------------------------------------------ *)
(** ** The stable sort puts the first minimum in front *)

Lemma sorted_by_dist_nil (l : list (Q * nat)) :
  sorted_by_dist l = [] -> l = [].
Proof.
  destruct l as [|x l]; [reflexivity|]. simpl.
  destruct (sorted_by_dist l) as [|y s]; simpl; [discriminate|].
  destruct (Qle_bool (fst x) (fst y)); discriminate.
Qed.

Lemma sorted_by_dist_head (l : list (Q * nat)) :
  forall x rest,
    sorted_by_dist l = x :: rest ->
    exists l1 l2,
      l = l1 ++ x :: l2 /\
      (forall y, In y l1 -> (fst x < fst y)%Q) /\
      (forall y, In y l2 -> (fst x <= fst y)%Q).
Proof.
  induction l as [|z l IH]; intros x rest H; [discriminate|].
  simpl in H. destruct (sorted_by_dist l) as [|h t] eqn:Hs.
  - apply sorted_by_dist_nil in Hs. subst l. simpl in H.
    injection H as Hx _. subst x.
    exists [], []. repeat split; intros y [].
  - destruct (IH h t eq_refl) as (l1 & l2 & Hl & Hlt & Hle).
    simpl in H. destruct (Qle_bool (fst z) (fst h)) eqn:Hzh.
    + injection H as Hx _. subst x.
      apply Qle_bool_iff in Hzh.
      exists [], l. repeat split; [intros y []|].
      intros y Hy. rewrite Hl in Hy. apply in_app_or in Hy.
      destruct Hy as [Hy|[Hy|Hy]].
      * apply Qlt_le_weak. eapply Qle_lt_trans; [exact Hzh|]. apply Hlt, Hy.
      * subst y. exact Hzh.
      * eapply Qle_trans; [exact Hzh|]. apply Hle, Hy.
    + injection H as Hx _. subst x.
      exists (z :: l1), l2. repeat split.
      * rewrite Hl. reflexivity.
      * intros y [Hy|Hy].
        -- subst y. apply Qnot_le_lt. intros Hc.
           apply Qle_bool_iff in Hc. congruence.
        -- apply Hlt, Hy.
      * exact Hle.
Qed.

(* ------------------------------------------------------------------ *)
(** ** What one pass over an A item, and the whole of [compute], append *)

Section RowFacts.

Variable L : Externals.
Variable tol : Z.
Variable b_items : list stored.

Lemma compute_iter_defined (item_a : stored) (m : list (option entry)) :
  row_defined L b_items item_a ->
  compute_iter L tol b_items m item_a = Ok (m ++ row_of L tol b_items item_a).
Proof.
  intros Hd. destruct item_a as [| |ca pa ga]; try reflexivity.
  unfold compute_iter. simpl in Hd.
  rewrite (scan_defined L tol _ ca b_items 0 _ Hd). cbn [bind].
  unfold conclude, scan_result, row_of.
  cbn [st_matrix st_found st_candidates app orb].
  set (ex := exact_hits (STuple ca pa ga) ca b_items 0).
  set (nc := near_hits L tol (STuple ca pa ga) ca b_items 0).
  destruct nc as [|c nc'] eqn:Hnc.
  - cbn [nonempty List.length Nat.ltb Nat.leb]. rewrite andb_false_r, orb_false_r.
    cbn [bind]. unfold near_entry. cbn [sorted_by_dist fold_right app].
    destruct (nonempty ex); cbn [negb];
      [rewrite app_nil_r|rewrite <- app_assoc]; reflexivity.
  - cbn [nonempty]. rewrite orb_true_r. cbn [andb List.length].
    unfold near_entry.
    destruct (sorted_by_dist (c :: nc')) as [|[d j] rest] eqn:Hs.
    + apply sorted_by_dist_nil in Hs. discriminate.
    + cbn [Nat.ltb Nat.leb bind negb]. rewrite <- app_assoc.
      cbn [app]. reflexivity.
Qed.

Lemma compute_iter_returns (item_a : stored) (m m' : list (option entry)) :
  compute_iter L tol b_items m item_a = Ok m' ->
  row_defined L b_items item_a.
Proof.
  destruct item_a as [| |ca pa ga]; simpl; trivial.
  unfold compute_iter.
  destruct (scan L tol (STuple ca pa ga) ca b_items 0 _) as [st|e] eqn:Hs;
    [|discriminate].
  intros _. eapply scan_returns. exact Hs.
Qed.

Lemma compute_iter_spec (item_a : stored) (m m' : list (option entry)) :
  compute_iter L tol b_items m item_a = Ok m' ->
  m' = m ++ row_of L tol b_items item_a.
Proof.
  intros H. pose proof (compute_iter_returns _ _ _ H) as Hd.
  rewrite (compute_iter_defined item_a m Hd) in H. congruence.
Qed.

Lemma compute_from_defined (a_items : list stored) :
  forall m, Forall (row_defined L b_items) a_items ->
    compute_from L tol a_items b_items m = Ok (m ++ flat_map (row_of L tol b_items) a_items).
Proof.
  induction a_items as [|item_a rest IH]; intros m Hd; simpl.
  - rewrite app_nil_r. reflexivity.
  - inversion Hd as [|x l Hx Hl]; subst.
    rewrite (compute_iter_defined item_a m Hx). cbn [bind].
    rewrite (IH _ Hl), app_assoc. reflexivity.
Qed.

Lemma compute_from_returns (a_items : list stored) :
  forall m m', compute_from L tol a_items b_items m = Ok m' ->
    Forall (row_defined L b_items) a_items.
Proof.
  induction a_items as [|item_a rest IH]; intros m m' H; [constructor|].
  simpl in H.
  destruct (compute_iter L tol b_items m item_a) as [m1|e] eqn:Hi;
    [|discriminate].
  constructor.
  - eapply compute_iter_returns. exact Hi.
  - eapply IH. exact H.
Qed.

(** [compute] returns the rows of the A items, one after the other *)
Lemma compute_spec (a_items : list stored) (m : list (option entry)) :
  compute L tol a_items b_items = Ok m ->
  Forall (row_defined L b_items) a_items /\ m = flat_map (row_of L tol b_items) a_items.
Proof.
  unfold compute. intros H.
  pose proof (compute_from_returns _ _ _ H) as Hd. split; [exact Hd|].
  rewrite (compute_from_defined a_items [] Hd) in H. simpl in H. congruence.
Qed.

Lemma compute_defined (a_items : list stored) :
  Forall (row_defined L b_items) a_items ->
  compute L tol a_items b_items = Ok (flat_map (row_of L tol b_items) a_items).
Proof. intros Hd. unfold compute. rewrite (compute_from_defined a_items [] Hd). reflexivity. Qed.

End RowFacts.

(* ------------------------------------------------------------------ *)
(** ** Facts about the rows *)

Lemma exact_test_coords (ca cb : json * json) (pa ga pb gb : json) :
  exact_test (STuple ca pa ga) ca (STuple cb pb gb) = coords_eqb ca cb.
Proof.
  simpl. destruct (coords_eqb ca cb); simpl; [apply orb_true_r|reflexivity].
Qed.

Lemma firstn_length_app {A : Type} (l1 l2 : list A) :
  firstn (List.length l1) (l1 ++ l2) = l1.
Proof. induction l1 as [|x l1 IH]; simpl; [destruct l2|rewrite IH]; reflexivity. Qed.

Lemma skipn_length_app {A : Type} (l1 l2 : list A) :
  skipn (List.length l1) (l1 ++ l2) = l2.
Proof. induction l1 as [|x l1 IH]; simpl; [reflexivity|exact IH]. Qed.

Lemma nth_error_middle {A : Type} (l1 l2 : list A) (x : A) :
  nth_error (l1 ++ x :: l2) (List.length l1) = Some x.
Proof. induction l1 as [|y l1 IH]; simpl; [reflexivity|exact IH]. Qed.

Section TableFacts.

Variable L : Externals.
Variable tol : Z.
Variable b_items : list stored.

Lemma row_of_nonempty (item_a : stored) :
  (1 <= List.length (row_of L tol b_items item_a))%nat.
Proof.
  destruct item_a as [| |ca pa ga]; simpl; try lia.
  rewrite !length_app, length_map.
  destruct (exact_hits (STuple ca pa ga) ca b_items 0) as [|j js]; simpl; [|lia].
  unfold near_entry.
  destruct (near_hits L tol (STuple ca pa ga) ca b_items 0) as [|c nc] eqn:Hn.
  - simpl. lia.
  - destruct (sorted_by_dist (c :: nc)) as [|[d j] r] eqn:Hs.
    + apply sorted_by_dist_nil in Hs. discriminate.
    + simpl. lia.
Qed.

(** every entry of a row is [None] or points at a truthy B item *)
Lemma row_of_entries (item_a : stored) (e : entry) :
  In (Some e) (row_of L tol b_items item_a) ->
  exists cb pb gb, nth_error b_items (entry_index e) = Some (STuple cb pb gb).
Proof.
  destruct item_a as [| |ca pa ga]; simpl.
  - intros [H|[]]. discriminate.
  - intros [H|[]]. discriminate.
  - intros H. apply in_app_or in H. destruct H as [H|H].
    + apply in_map_iff in H. destruct H as (j & Hj & Hin).
      injection Hj as <-. apply exact_hits_In in Hin.
      destruct Hin as (j0 & x & -> & Hn & Hex). simpl.
      destruct (exact_test_tuple _ _ _ Hex) as (cb & pb & gb & ->).
      unfold entry_index. simpl. eauto.
    + apply in_app_or in H. destruct H as [H|H].
      * unfold near_entry in H.
        destruct (sorted_by_dist _) as [|[d j] r] eqn:Hs; [destruct H|].
        destruct H as [H|[]]. injection H as <-.
        destruct (sorted_by_dist_head _ _ _ Hs) as (l1 & l2 & Hl & _).
        assert (Hin : In (d, j) (near_hits L tol (STuple ca pa ga) ca b_items 0)).
        { rewrite Hl. apply in_or_app. right. left. reflexivity. }
        apply near_hits_In in Hin. destruct Hin as (j0 & x & -> & Hn & Hnd).
        destruct (near_dist_tuple _ _ _ _ _ _ Hnd) as (cb & pb & gb & -> & _).
        unfold entry_index. simpl. eauto.
      * destruct (_ || _); [destruct H|]. destruct H as [H|[]]. discriminate.
Qed.

Lemma table_length_ge (a_items : list stored) :
  (List.length a_items <= List.length (flat_map (row_of L tol b_items) a_items))%nat.
Proof.
  induction a_items as [|x l IH]; simpl; [lia|].
  rewrite length_app. pose proof (row_of_nonempty x). lia.
Qed.

Lemma table_entries (a_items : list stored) (e : entry) :
  In (Some e) (flat_map (row_of L tol b_items) a_items) ->
  exists cb pb gb, nth_error b_items (entry_index e) = Some (STuple cb pb gb).
Proof.
  intros H. apply in_flat_map in H. destruct H as (x & _ & Hin).
  eapply row_of_entries. exact Hin.
Qed.

(** the table of a split A is the two tables, one after the other *)
Lemma compute_split (l1 l2 : list stored) (item_a : stored) :
  Forall (row_defined L b_items) (l1 ++ item_a :: l2) ->
  compute L tol l1 b_items = Ok (flat_map (row_of L tol b_items) l1) /\
  compute L tol l2 b_items = Ok (flat_map (row_of L tol b_items) l2) /\
  compute L tol (l1 ++ item_a :: l2) b_items =
    Ok (flat_map (row_of L tol b_items) l1
          ++ row_of L tol b_items item_a
          ++ flat_map (row_of L tol b_items) l2).
Proof.
  intros Hd. pose proof Hd as Hd'.
  apply Forall_app in Hd'. destruct Hd' as [H1 H2].
  inversion H2 as [|x l Hx Hl]; subst.
  repeat split; try (apply compute_defined; assumption).
  rewrite (compute_defined L tol b_items _ Hd), flat_map_app. reflexivity.
Qed.

End TableFacts.

(* ------------------------------------------------------------------ *)
(** ** The match table *)

(** C1. The table does not keep one entry per A record: every B record
    that passes an EXACT test appends an entry of its own.  Loading one
    Point at (0, 0) as A and two Points at (0, 0) as B gives a table of
    two entries for the single A record, under every tolerance. *)
Theorem two_exact_hits_make_two_entries (L : Externals) (tolerance : Z) :
  exists gc,
    GeojsonCompare_init L
      (Sample.collection [Sample.point 0 0 []])
      (Sample.collection [Sample.point 0 0 []; Sample.point 0 0 []])
      tolerance = Ok gc /\
    items (ds_a gc) = [Sample.at_ 0 0] /\
    items (ds_b gc) = [Sample.at_ 0 0; Sample.at_ 0 0] /\
    matrix gc = [exact_entry 0; exact_entry 1].
Proof.
  eexists. split; [reflexivity|]. repeat split.
Qed.

(** The part of the table invariant that does hold: the table is never
    shorter than A, and every entry that is not [None] names a truthy
    B item. *)
Lemma table_sound (L : Externals) (tol : Z) (a_items b_items : list stored)
    (m : list (option entry)) :
  compute L tol a_items b_items = Ok m ->
  (List.length a_items <= List.length m)%nat /\
  forall e, In (Some e) m ->
    (entry_index e < List.length b_items)%nat /\
    exists cb pb gb, nth_error b_items (entry_index e) = Some (STuple cb pb gb).
Proof.
  intros H. apply compute_spec in H. destruct H as [_ ->]. split.
  - apply table_length_ge.
  - intros e He. destruct (table_entries _ _ _ _ _ He) as (cb & pb & gb & Hn).
    split; [|eauto]. apply nth_error_Some. congruence.
Qed.

(** C3, as stated, fails: with one A record and two B records at the
    same coordinates the entry at index 0 is the one of B index 0, not
    of B index 1. *)
Lemma last_exact_hit_not_kept :
  ~ last_exact_hit_kept Sample.externals 100
      [Sample.at_ 0 0] [Sample.at_ 0 0; Sample.at_ 0 0].
Proof.
  intros H.
  specialize (H [exact_entry 0; exact_entry 1] 0%nat
                (JNum 0, JNum 0) JNull JNull 1%nat (Sample.at_ 0 0)
                eq_refl eq_refl eq_refl eq_refl).
  assert (Hlast : forall j' item',
             (1 < j')%nat ->
             nth_error [Sample.at_ 0 0; Sample.at_ 0 0] j' = Some item' ->
             exact_test (STuple (JNum 0, JNum 0) JNull JNull)
               (JNum 0, JNum 0) item' = false).
  { intros j' item' Hlt Hn. destruct j' as [|[|j']]; try lia.
    simpl in Hn. destruct j'; discriminate. }
  specialize (H Hlast). discriminate.
Qed.

(** C3, amended.  When the A records before index [i] contributed one
    entry each, and the B record at [j] is the FIRST one in scan order
    that passes an EXACT test against A[i], the table entry at [i] is
    the EXACT entry of [j], with distance 0 and no alternates; it is
    not a NEAR entry. *)
Theorem first_exact_hit_kept (L : Externals) (tol : Z)
    (a_items b_items : list stored) (i j : nat)
    (ca : json * json) (pa ga : json) (item_b : stored) :
  Forall (row_defined L b_items) a_items ->
  nth_error a_items i = Some (STuple ca pa ga) ->
  (forall pre, compute L tol (firstn i a_items) b_items = Ok pre ->
               List.length pre = i) ->
  nth_error b_items j = Some item_b ->
  exact_test (STuple ca pa ga) ca item_b = true ->
  (forall j' item', (j' < j)%nat -> nth_error b_items j' = Some item' ->
                    exact_test (STuple ca pa ga) ca item' = false) ->
  exists m,
    compute L tol a_items b_items = Ok m /\
    nth_error m i = Some (Some (j, MATCH_EXACT, 0%Q, None)).
Proof.
  intros Hd Ha Hpre Hb Hex Hfirst.
  destruct (nth_error_split _ _ Ha) as (l1 & l2 & -> & Hlen).
  destruct (compute_split L tol b_items l1 l2 _ Hd) as (H1 & _ & Hm).
  eexists. split; [exact Hm|].
  assert (Hi : List.length (flat_map (row_of L tol b_items) l1) = i).
  { apply Hpre. rewrite <- Hlen, firstn_length_app. exact H1. }
  destruct (exact_hits_first (STuple ca pa ga) ca b_items 0 j item_b Hb Hex Hfirst)
    as [js Hjs].
  simpl row_of. rewrite Hjs. simpl map. simpl app.
  rewrite <- Hi. apply nth_error_middle.
Qed.

(** the witness: A = [(0,0)], B = [(0,1); (0,0); (0,0)], index 0 *)
Lemma first_exact_hit_kept_witness :
  exists m,
    compute Sample.externals 100 [Sample.at_ 0 0]
      [Sample.at_ 0 1; Sample.at_ 0 0; Sample.at_ 0 0] = Ok m /\
    nth_error m 0 = Some (Some (1%nat, MATCH_EXACT, 0%Q, None)).
Proof.
  apply (first_exact_hit_kept Sample.externals 100 [Sample.at_ 0 0]
           [Sample.at_ 0 1; Sample.at_ 0 0; Sample.at_ 0 0] 0 1
           (JNum 0, JNum 0) JNull JNull (Sample.at_ 0 0)).
  - repeat constructor. intros cb pb gb Hin Hex.
    simpl in Hin. destruct Hin as [H|[H|[H|[]]]]; injection H as <- <- <-;
      try discriminate Hex. eexists. reflexivity.
  - reflexivity.
  - intros pre H. injection H as <-. reflexivity.
  - reflexivity.
  - reflexivity.
  - intros j' item' Hlt Hn. destruct j' as [|j']; [|lia].
    injection Hn as <-. reflexivity.
Defined.

(** a B item within tolerance of an A item it is not EXACT for is one of
    the candidates, and the candidates are nothing else *)
Lemma near_hits_iff (L : Externals) (tol : Z) (ca : json * json) (pa ga : json)
    (b_items : list stored) (d : Q) (j : nat) :
  In (d, j) (near_hits L tol (STuple ca pa ga) ca b_items 0) <->
  exists cb pb gb,
    nth_error b_items j = Some (STuple cb pb gb) /\
    coords_eqb ca cb = false /\
    haversine L ca cb = Ok d /\
    (d <= inject_Z tol)%Q.
Proof.
  rewrite near_hits_In. split.
  - intros (j0 & x & -> & Hn & Hnd).
    destruct (near_dist_tuple _ _ _ _ _ _ Hnd) as (cb & pb & gb & -> & Hex & Hh & Hle).
    rewrite exact_test_coords in Hex. apply Qle_bool_iff in Hle.
    exists cb, pb, gb. auto.
  - intros (cb & pb & gb & Hn & Hc & Hh & Hle).
    exists j, (STuple cb pb gb). repeat split; [exact Hn|].
    unfold near_dist. rewrite exact_test_coords, Hc, Hh.
    apply Qle_bool_iff in Hle. rewrite Hle. reflexivity.
Qed.

(** C4. An A record with no EXACT hit and at least one B record within
    tolerance contributes exactly one entry, placed after the entries
    of the earlier A records: a NEAR entry whose B record is within
    tolerance, at the least distance among the valid B records within
    tolerance, and of the least B index among those at that distance. *)
Theorem near_match_is_closest (L : Externals) (tol : Z)
    (a_items b_items : list stored) (i : nat)
    (ca : json * json) (pa ga : json) :
  Forall (row_defined L b_items) a_items ->
  nth_error a_items i = Some (STuple ca pa ga) ->
  (forall j item_b, nth_error b_items j = Some item_b ->
                    exact_test (STuple ca pa ga) ca item_b = false) ->
  (exists j0 cb0 pb0 gb0 d0,
      nth_error b_items j0 = Some (STuple cb0 pb0 gb0) /\
      haversine L ca cb0 = Ok d0 /\ (d0 <= inject_Z tol)%Q) ->
  exists m pre post j d skiped cb pb gb,
    compute L tol a_items b_items = Ok m /\
    compute L tol (firstn i a_items) b_items = Ok pre /\
    compute L tol (skipn (S i) a_items) b_items = Ok post /\
    m = pre ++ Some (j, MATCH_NEAR, d, skiped) :: post /\
    nth_error b_items j = Some (STuple cb pb gb) /\
    haversine L ca cb = Ok d /\
    (d <= inject_Z tol)%Q /\
    forall j' cb' pb' gb' d',
      nth_error b_items j' = Some (STuple cb' pb' gb') ->
      haversine L ca cb' = Ok d' ->
      (d' <= inject_Z tol)%Q ->
      (d <= d')%Q /\ ((d' <= d)%Q -> (j <= j')%nat).
Proof.
  intros Hd Ha Hno (j0 & cb0 & pb0 & gb0 & d0 & Hb0 & Hh0 & Hle0).
  destruct (nth_error_split _ _ Ha) as (l1 & l2 & -> & Hlen).
  destruct (compute_split L tol b_items l1 l2 _ Hd) as (H1 & H2 & Hm).
  set (nc := near_hits L tol (STuple ca pa ga) ca b_items 0).
  assert (Hcoords : forall j cb pb gb,
             nth_error b_items j = Some (STuple cb pb gb) ->
             coords_eqb ca cb = false).
  { intros j cb pb gb Hn. rewrite <- (exact_test_coords ca cb pa ga pb gb).
    eapply Hno. exact Hn. }
  assert (Hin0 : In (d0, j0) nc).
  { apply near_hits_iff. exists cb0, pb0, gb0. eauto. }
  destruct (sorted_by_dist nc) as [|[d j] rest] eqn:Hs.
  { apply sorted_by_dist_nil in Hs. rewrite Hs in Hin0. destruct Hin0. }
  destruct (sorted_by_dist_head _ _ _ Hs) as (c1 & c2 & Hnc & Hlt & Hge).
  assert (Hbest : In (d, j) nc).
  { rewrite Hnc. apply in_or_app. right. left. reflexivity. }
  apply near_hits_iff in Hbest.
  destruct Hbest as (cb & pb & gb & Hb & _ & Hh & Hle).
  exists (flat_map (row_of L tol b_items) l1
            ++ row_of L tol b_items (STuple ca pa ga)
            ++ flat_map (row_of L tol b_items) l2),
    (flat_map (row_of L tol b_items) l1),
    (flat_map (row_of L tol b_items) l2),
    j, d, (skiped_of nc), cb, pb, gb.
  split; [exact Hm|].
  split; [rewrite <- Hlen, firstn_length_app; exact H1|].
  split.
  { rewrite <- Hlen.
    replace (S (List.length l1)) with (List.length (l1 ++ [STuple ca pa ga]))
      by (rewrite length_app; simpl; lia).
    replace (l1 ++ STuple ca pa ga :: l2) with ((l1 ++ [STuple ca pa ga]) ++ l2)
      by (rewrite <- app_assoc; reflexivity).
    rewrite skipn_length_app. exact H2. }
  split.
  { f_equal. simpl row_of. fold nc.
    rewrite (exact_hits_none _ _ b_items 0 Hno).
    unfold near_entry. rewrite Hs.
    destruct nc as [|c nc']; [destruct Hin0|]. reflexivity. }
  repeat split; try assumption.
  - assert (Hin : In (d', j') nc).
    { apply near_hits_iff. exists cb', pb', gb'. eauto. }
    rewrite Hnc in Hin. apply in_app_or in Hin.
    destruct Hin as [Hin|[Hin|Hin]].
    + apply Qlt_le_weak. exact (Hlt _ Hin).
    + injection Hin as <- _. apply Qle_refl.
    + exact (Hge _ Hin).
  - intros Hrev.
    assert (Hin : In (d', j') nc).
    { apply near_hits_iff. exists cb', pb', gb'. eauto. }
    rewrite Hnc in Hin. apply in_app_or in Hin.
    destruct Hin as [Hin|[Hin|Hin]].
    + exfalso. apply (Qlt_not_le _ _ (Hlt _ Hin)). exact Hrev.
    + injection Hin as _ <-. lia.
    + pose proof (near_hits_ascending _ _ _ _ _ _ _ _ _ Hnc _ Hin) as Hasc.
      simpl in Hasc. lia.
Qed.

(** the witness: A = [(0,0)], B = [(0,0.001); (0,0.0005)], 150 m *)
Lemma near_match_is_closest_witness :
  exists m pre post j d skiped,
    compute Sample.externals 150 [Sample.at_ 0 0]
      [Sample.at_ 0 (1 # 1000); Sample.at_ 0 (1 # 2000)] = Ok m /\
    m = pre ++ Some (j, MATCH_NEAR, d, skiped) :: post /\
    (d <= inject_Z 150)%Q.
Proof.
  destruct (near_match_is_closest Sample.externals 150 [Sample.at_ 0 0]
              [Sample.at_ 0 (1 # 1000); Sample.at_ 0 (1 # 2000)] 0
              (JNum 0, JNum 0) JNull JNull)
    as (m & pre & post & j & d & skiped & cb & pb & gb & Hm & _ & _ & Hs & _ & _ & Hle & _).
  - repeat constructor. intros cb pb gb Hin Hex.
    simpl in Hin. destruct Hin as [H|[H|[]]]; injection H as <- <- <-;
      eexists; reflexivity.
  - reflexivity.
  - intros j item_b Hn. destruct j as [|[|j]]; simpl in Hn.
    + injection Hn as <-. reflexivity.
    + injection Hn as <-. reflexivity.
    + destruct j; discriminate.
  - exists 0%nat, (JNum 0, JNum (1 # 1000)), JNull, JNull.
    eexists. split; [reflexivity|]. split; [reflexivity|].
    apply Qle_bool_iff. reflexivity.
  - exists m, pre, post, j, d, skiped. auto.
Defined.

(** C8. For a valid pair whose coordinates differ, the scan of B puts
    B[j] on A[i]'s candidate list, with the distance [haversine]
    returned, exactly when that distance is at most the tolerance: a
    distance equal to the tolerance qualifies, a greater one does not. *)
Theorem candidate_iff_within_tolerance (L : Externals) (tol : Z)
    (b_items : list stored) (m0 : list (option entry))
    (ca : json * json) (pa ga : json) (j : nat)
    (cb : json * json) (pb gb : json) (d : Q) :
  hav_defined L (STuple ca pa ga) ca b_items ->
  nth_error b_items j = Some (STuple cb pb gb) ->
  coords_eqb ca cb = false ->
  haversine L ca cb = Ok d ->
  exists st,
    scan L tol (STuple ca pa ga) ca b_items 0
      {| st_matrix := m0; st_found := false; st_candidates := [] |} = Ok st /\
    forall d', In (d', j) (st_candidates st) <-> d' = d /\ (d <= inject_Z tol)%Q.
Proof.
  intros Hd Hb Hc Hh. eexists. split; [apply scan_defined; exact Hd|].
  intros d'. unfold scan_result. cbn [st_candidates app].
  rewrite near_hits_iff. split.
  - intros (cb' & pb' & gb' & Hb' & _ & Hh' & Hle).
    rewrite Hb in Hb'. injection Hb' as <- <- <-.
    rewrite Hh in Hh'. injection Hh' as <-. auto.
  - intros [-> Hle]. exists cb, pb, gb. auto.
Qed.

(** the witness: at tolerance 111195 m the B point one degree away, at
    exactly that distance, is a candidate *)
Lemma candidate_iff_within_tolerance_witness :
  exists st,
    scan Sample.externals 111195 (Sample.at_ 0 0) (JNum 0, JNum 0)
      [Sample.at_ 0 1] 0
      {| st_matrix := []; st_found := false; st_candidates := [] |} = Ok st /\
    forall d', In (d', 0%nat) (st_candidates st) <->
               d' = (111195 * (Qabs (0 - 0) + Qabs (0 - 1)))%Q /\
               (111195 * (Qabs (0 - 0) + Qabs (0 - 1)) <= inject_Z 111195)%Q.
Proof.
  apply (candidate_iff_within_tolerance Sample.externals 111195 [Sample.at_ 0 1] []
           (JNum 0, JNum 0) JNull JNull 0 (JNum 0, JNum 1) JNull JNull).
  - intros cb pb gb Hin Hex. simpl in Hin. destruct Hin as [H|[]].
    injection H as <- <- <-. eexists. reflexivity.
  - reflexivity.
  - reflexivity.
  - reflexivity.
Defined.

(** C5, amended.  Provided [haversine] returns where the scan calls
    it, the candidates of an A record are the B records within
    tolerance whose coordinates differ from its own; when there is one,
    the NEAR entry names one of them, and its alternates are the labels
    of ALL the candidates, the selected one included, in the order of
    the scan; they are present exactly when there is more than one
    candidate. *)
Theorem alternates_list_every_candidate (L : Externals) (tol : Z)
    (b_items : list stored) (m0 : list (option entry))
    (ca : json * json) (pa ga : json) :
  hav_defined L (STuple ca pa ga) ca b_items ->
  exists st,
    scan L tol (STuple ca pa ga) ca b_items 0
      {| st_matrix := m0; st_found := false; st_candidates := [] |} = Ok st /\
    (forall d j,
        In (d, j) (st_candidates st) <->
        exists cb pb gb,
          nth_error b_items j = Some (STuple cb pb gb) /\
          coords_eqb ca cb = false /\
          haversine L ca cb = Ok d /\
          (d <= inject_Z tol)%Q) /\
    (st_candidates st <> [] ->
     exists j d skiped,
       compute_iter L tol b_items m0 (STuple ca pa ga)
         = Ok (st_matrix st ++ [Some (j, MATCH_NEAR, d, skiped)]) /\
       In (d, j) (st_candidates st) /\
       ((1 < List.length (st_candidates st))%nat ->
        skiped = Some (map (fun c => label_b (snd c)) (st_candidates st))) /\
       ((List.length (st_candidates st) <= 1)%nat -> skiped = None)).
Proof.
  intros Hd. eexists. split; [apply scan_defined; exact Hd|].
  unfold compute_iter. rewrite (scan_defined L tol _ ca b_items 0 _ Hd).
  cbn [bind]. unfold conclude.
  cbn [scan_result st_matrix st_found st_candidates app orb].
  set (nc := near_hits L tol (STuple ca pa ga) ca b_items 0).
  split; [intros d j; apply near_hits_iff|].
  intros Hne.
  destruct (sorted_by_dist nc) as [|[d j] rest] eqn:Hs.
  { apply sorted_by_dist_nil in Hs. contradiction. }
  destruct (sorted_by_dist_head _ _ _ Hs) as (l1 & l2 & Hnc & _).
  exists j, d, (skiped_of nc).
  assert (Hpos : (0 <? List.length nc)%nat = true).
  { destruct nc; [contradiction|reflexivity]. }
  assert (Hf : nonempty nc = true) by (destruct nc; [contradiction|reflexivity]).
  rewrite Hpos, Hf, orb_true_r. cbn [andb bind negb].
  repeat split.
  - rewrite Hnc. apply in_or_app. right. left. reflexivity.
  - intros Hlen. unfold skiped_of. apply Nat.ltb_lt in Hlen. rewrite Hlen. reflexivity.
  - intros Hlen. unfold skiped_of.
    destruct (1 <? List.length nc)%nat eqn:Hl; [|reflexivity].
    apply Nat.ltb_lt in Hl. lia.
Qed.

(** the witness: both B records are within 150 m of the A record *)
Lemma alternates_list_every_candidate_witness :
  exists st j d skiped,
    compute_iter Sample.externals 150
      [Sample.at_ 0 (1 # 1000); Sample.at_ 0 (1 # 2000)] [] (Sample.at_ 0 0)
      = Ok (st_matrix st ++ [Some (j, MATCH_NEAR, d, skiped)]) /\
    In (d, j) (st_candidates st) /\
    skiped = Some (map (fun c => label_b (snd c)) (st_candidates st)).
Proof.
  destruct (alternates_list_every_candidate Sample.externals 150
              [Sample.at_ 0 (1 # 1000); Sample.at_ 0 (1 # 2000)] []
              (JNum 0, JNum 0) JNull JNull)
    as (st & Hscan & _ & Hnear).
  - intros cb pb gb Hin Hex.
    simpl in Hin. destruct Hin as [H|[H|[]]]; injection H as <- <- <-;
      eexists; reflexivity.
  - injection Hscan as <-.
    destruct Hnear as (j & d & skiped & Hm & Hin & Hmany & _); [discriminate|].
    eexists. exists j, d, skiped. repeat split; [exact Hm|exact Hin|].
    apply Hmany. simpl. lia.
Defined.

(** C5, as stated, fails: with two B records within tolerance the
    alternates of the NEAR entry are "B0" and "B1", and "B1" is the
    label of the selected match. *)
Lemma best_match_among_alternates :
  exists d labels,
    compute Sample.externals 150 [Sample.at_ 0 0]
      [Sample.at_ 0 (1 # 1000); Sample.at_ 0 (1 # 2000)]
      = Ok [Some (1%nat, MATCH_NEAR, d, Some labels)] /\
    labels = ["B0"; "B1"] /\
    In (label_b 1) labels.
Proof.
  eexists. eexists. split; [reflexivity|].
  split; [reflexivity|]. right. left. reflexivity.
Qed.

(* ------------------------------------------------------------------ *)
(** ** The renderers on placeholders *)

Section PlaceholderFacts.

Variable L : Externals.
Variables a_items b_items : list stored.
Variable m : list (option entry).

Lemma diff_feature_placeholder (i : nat) (s : stored) :
  nth_error a_items i = Some s ->
  stored_truthy s = false ->
  raises (diff_feature L a_items b_items m i).
Proof.
  intros Hn Hs. unfold diff_feature, list_get. rewrite Hn. cbn [bind].
  destruct (nth_error m i) as [e|]; cbn [bind]; [|eexists; reflexivity].
  destruct s; try discriminate; eexists; reflexivity.
Qed.

Lemma diff_features_raises (n : nat) :
  forall k feats i,
    (k <= i < k + n)%nat ->
    raises (diff_feature L a_items b_items m i) ->
    raises (diff_features L a_items b_items m n k feats).
Proof.
  induction n as [|n IH]; intros k feats i Hi Hr; [lia|].
  simpl. destruct (diff_feature L a_items b_items m k) as [res|e] eqn:Hk.
  - cbn [bind]. apply (IH (S k) _ i); [|exact Hr].
    destruct (Nat.eq_dec i k) as [->|Hne]; [|lia].
    destruct Hr as [e He]. congruence.
  - eexists. reflexivity.
Qed.

Lemma tabular_row_placeholder (i : nat) (s : stored) :
  nth_error a_items i = Some s ->
  stored_truthy s = false ->
  raises (tabular_row L a_items b_items m i).
Proof.
  intros Hn Hs. unfold tabular_row, list_get. rewrite Hn. cbn [bind].
  destruct (nth_error m i) as [e|]; cbn [bind]; [|eexists; reflexivity].
  destruct s; try discriminate; eexists; reflexivity.
Qed.

Lemma tabular_rows_raises (n : nat) :
  forall k data i,
    (k <= i < k + n)%nat ->
    raises (tabular_row L a_items b_items m i) ->
    raises (tabular_rows L a_items b_items m n k data).
Proof.
  induction n as [|n IH]; intros k data i Hi Hr; [lia|].
  simpl. destruct (tabular_row L a_items b_items m k) as [row|e] eqn:Hk.
  - cbn [bind]. apply (IH (S k) _ i); [|exact Hr].
    destruct (Nat.eq_dec i k) as [->|Hne]; [|lia].
    destruct Hr as [e He]. congruence.
  - eexists. reflexivity.
Qed.

(** the tabular renderer stops at a placeholder as well: [id_a] reads
    [_item_a[1]] before any of the [not _item_a] tests *)
Lemma summary_tabular_placeholder (i : nat) (s : stored) :
  nth_error a_items i = Some s ->
  stored_truthy s = false ->
  raises (summary_tabular L a_items b_items m).
Proof.
  intros Hn Hs. unfold summary_tabular.
  destruct (tabular_rows_raises (List.length a_items) 0 [] i) as [e He].
  - split; [lia|]. simpl. apply nth_error_Some. congruence.
  - eapply tabular_row_placeholder; eauto.
  - rewrite He. eexists. reflexivity.
Qed.

End PlaceholderFacts.

(** Whenever A holds a placeholder ([False] or [None]) the Diff
    Renderer raises and returns no document, whatever B and the table
    are; [summary_tabular_placeholder] is the same fact for the Tabular
    Renderer. *)
Lemma diff_raises_on_placeholder (L : Externals)
    (a_items b_items : list stored) (m : list (option entry))
    (i : nat) (s : stored) :
  nth_error a_items i = Some s ->
  stored_truthy s = false ->
  raises (diff_geojson_full L a_items b_items m).
Proof.
  intros Hn Hs. unfold diff_geojson_full.
  destruct (diff_features_raises L a_items b_items m (List.length a_items) 0 [] i)
    as [e He].
  - split; [lia|]. simpl. apply nth_error_Some. congruence.
  - eapply diff_feature_placeholder; eauto.
  - rewrite He. eexists. reflexivity.
Qed.

(** C2. The renderers do not get past an invalid A record.  A feature
    without a geometry loads as the [False] placeholder and the table
    gets [None] for it, as the loader and the engine mean it to; then
    the Diff Renderer raises [TypeError] at [_item_a[2]] and the
    Tabular Renderer raises [TypeError] at [_item_a[1]], the one read
    of the row it does not guard by [not _item_a].  Neither produces a
    feature or a row, under every tolerance. *)
Theorem placeholder_stops_both_renderers (L : Externals) (tolerance : Z) :
  exists gc,
    GeojsonCompare_init L
      (Sample.collection [JObj [("type", JStr "Feature")]])
      (Sample.collection []) tolerance = Ok gc /\
    items (ds_a gc) = [SFalse] /\
    matrix gc = [None] /\
    diff_geojson_full L (items (ds_a gc)) (items (ds_b gc)) (matrix gc)
      = Raise TypeError /\
    summary_tabular L (items (ds_a gc)) (items (ds_b gc)) (matrix gc)
      = Raise TypeError /\
    ~ renderers_survive_placeholders L gc.
Proof.
  eexists. split; [reflexivity|]. repeat split.
  intros [[feats [H _]] _]. discriminate H.
Qed.

(* ------------------------------------------------------------------ *)
(** ** The Diff Renderer on valid records *)

Section DiffFacts.

Variable L : Externals.
Variables a_items b_items : list stored.
Variable m : list (option entry).

Hypothesis b_props : Forall props_ok b_items.
Hypothesis m_sound :
  forall e, In (Some e) m ->
    exists cb pb gb, nth_error b_items (entry_index e) = Some (STuple cb pb gb).

Lemma diff_feature_ok (i : nat) (c : json * json) (p g : json) (me : option entry) :
  nth_error a_items i = Some (STuple c p g) ->
  props_ok (STuple c p g) ->
  nth_error m i = Some me ->
  exists props,
    diff_feature L a_items b_items m i =
      Ok (JObj [("geometry", if Py.is_none g then point_geometry c else g);
                ("properties", JObj props);
                ("type", JStr "Feature")]).
Proof.
  intros Ha Hp Hm. unfold diff_feature, list_get. rewrite Ha, Hm.
  cbn [bind sub2 sub1 sub0].
  assert (Hg : (if negb (Py.is_none g) then Ok g
                else Ok (JObj [("type", JStr "Point"); ("coordinates", tuple_value c)]))
               = Ok (if Py.is_none g then point_geometry c else g)).
  { destruct (Py.is_none g); reflexivity. }
  rewrite Hg. cbn [bind].
  assert (Hpa : exists fp,
             (if negb (Py.is_none p)
              then its <- Py.items p ;; Ok (copy_prefixed "a." its [])
              else Ok []) = Ok fp).
  { destruct Hp as [->|[f ->]]; simpl; eauto. }
  destruct Hpa as [fp ->]. cbn [bind].
  destruct me as [e|].
  - destruct (m_sound e) as (cb & pb & gb & Hb).
    { eapply nth_error_In. exact Hm. }
    rewrite Hb. cbn [bind sub1].
    assert (Hpb : props_ok (STuple cb pb gb)).
    { eapply Forall_forall; [exact b_props|]. eapply nth_error_In. exact Hb. }
    destruct Hpb as [->|[f ->]]; cbn [Py.truthy bind].
    + eexists. reflexivity.
    + destruct f; cbn [Py.items bind]; eexists; reflexivity.
  - cbn [bind]. eexists. reflexivity.
Qed.

Lemma diff_features_ok (n : nat) :
  forall k feats,
    (forall i, (k <= i < k + n)%nat ->
               exists res, diff_feature L a_items b_items m i = Ok res) ->
    exists out,
      diff_features L a_items b_items m n k feats = Ok (feats ++ out) /\
      List.length out = n /\
      forall i res, nth_error out i = Some res ->
                    diff_feature L a_items b_items m (k + i) = Ok res.
Proof.
  induction n as [|n IH]; intros k feats Hall.
  - exists []. simpl. rewrite app_nil_r. repeat split.
    intros i res H. destruct i; discriminate.
  - destruct (Hall k) as [res Hres]; [lia|].
    destruct (IH (S k) (feats ++ [res])) as (out & Hout & Hlen & Hnth).
    { intros i Hi. apply Hall. lia. }
    exists (res :: out). simpl. rewrite Hres. cbn [bind].
    rewrite Hout, <- app_assoc. repeat split; [simpl; lia|].
    intros i r Hi. destruct i as [|i]; simpl in Hi.
    + injection Hi as <-. rewrite Nat.add_0_r. exact Hres.
    + apply Hnth in Hi. rewrite <- Hi. f_equal. lia.
Qed.

End DiffFacts.

(** For an A record without original geometry the feature the Diff
    Renderer builds has a Point whose coordinates are the stored tuple
    as it is.  When every A record is valid the renderer returns, with
    one feature per A record, in A's order. *)
Lemma diff_renders_valid_records (L : Externals) (tol : Z)
    (a_items b_items : list stored) :
  (forall m i latitude longitude p res,
      nth_error a_items i = Some (STuple (latitude, longitude) p JNull) ->
      diff_feature L a_items b_items m i = Ok res ->
      exists props,
        res = JObj [("geometry",
                     JObj [("type", JStr "Point");
                           ("coordinates", JArr [latitude; longitude])]);
                    ("properties", JObj props);
                    ("type", JStr "Feature")]) /\
  (Forall (row_defined L b_items) a_items ->
  (forall s, In s a_items -> stored_truthy s = true) ->
  Forall props_ok a_items ->
  Forall props_ok b_items ->
  exists m feats,
    compute L tol a_items b_items = Ok m /\
    diff_geojson_full L a_items b_items m
      = Ok (JObj [("type", JStr "FeatureCollection"); ("features", JArr feats)]) /\
    List.length feats = List.length a_items /\
    forall i latitude longitude p,
      nth_error a_items i = Some (STuple (latitude, longitude) p JNull) ->
      exists props,
        nth_error feats i =
          Some (JObj [("geometry",
                       JObj [("type", JStr "Point");
                             ("coordinates", JArr [latitude; longitude])]);
                      ("properties", JObj props);
                      ("type", JStr "Feature")])).
Proof.
  split.
  { intros m i latitude longitude p res Ha H.
    unfold diff_feature, list_get in H. rewrite Ha in H.
    cbn [bind sub2 sub1 sub0 Py.is_none negb tuple_value fst snd] in H.
    destruct (nth_error m i) as [me|]; cbn [bind] in H; [|discriminate H].
    bind_inv H. injection H as <-. eexists. reflexivity. }
  intros Hd Hvalid Hpa Hpb.
  pose proof (compute_defined L tol b_items a_items Hd) as Hm.
  destruct (table_sound _ _ _ _ _ Hm) as [Hlen Hsound].
  set (m := flat_map (row_of L tol b_items) a_items) in *.
  assert (Hsound' : forall e, In (Some e) m ->
            exists cb pb gb, nth_error b_items (entry_index e) = Some (STuple cb pb gb)).
  { intros e He. apply Hsound. exact He. }
  assert (Hrow : forall i s, nth_error a_items i = Some s ->
            exists c p g me, s = STuple c p g /\ props_ok s /\ nth_error m i = Some me).
  { intros i s Hs.
    pose proof (Hvalid s (nth_error_In _ _ Hs)) as Ht.
    destruct s as [| |c p g]; try discriminate.
    destruct (nth_error m i) as [me|] eqn:Hme.
    - exists c, p, g, me. repeat split.
      eapply Forall_forall; [exact Hpa|]. eapply nth_error_In. exact Hs.
    - apply nth_error_None in Hme.
      assert (i < List.length a_items)%nat by (apply nth_error_Some; congruence).
      lia. }
  destruct (diff_features_ok L a_items b_items m (List.length a_items) 0 [])
    as (out & Hout & Hlo & Hnth).
  { intros i Hi.
    destruct (nth_error a_items i) as [s|] eqn:Hs.
    - destruct (Hrow i s Hs) as (c & p & g & me & -> & Hp & Hme).
      destruct (diff_feature_ok L a_items b_items m Hpb Hsound' i c p g me Hs Hp Hme)
        as [props Hf].
      eauto.
    - apply nth_error_None in Hs. lia. }
  exists m, out. split; [exact Hm|].
  split; [unfold diff_geojson_full; rewrite Hout; reflexivity|].
  split; [exact Hlo|].
  intros i latitude longitude p Hi.
  destruct (Hrow i _ Hi) as (c & p' & g & me & Heq & Hp & Hme).
  destruct (diff_feature_ok L a_items b_items m Hpb Hsound' i
              (latitude, longitude) p JNull me Hi Hp Hme) as [props Hf].
  exists props.
  destruct (nth_error out i) as [res|] eqn:Hres.
  - apply Hnth in Hres. simpl in Hres. rewrite Hf in Hres.
    injection Hres as <-. reflexivity.
  - apply nth_error_None in Hres.
    assert (i < List.length a_items)%nat by (apply nth_error_Some; congruence).
    lia.
Qed.

(* ------------------------------------------------------------------ *)
(** ** The Tabular Renderer *)

(** the cells [latitude_a], [longitude_a], [latitude_b], [longitude_b]
    of a row, for a stored tuple (latitude, longitude) *)
Lemma tabular_row_coordinate_cells (L : Externals)
    (a_items b_items : list stored) (m : list (option entry)) (i : nat)
    (latitude longitude p g : json) (row : list json) :
  nth_error a_items i = Some (STuple (latitude, longitude) p g) ->
  tabular_row L a_items b_items m i = Ok row ->
  nth_error row 5 = Some longitude /\
  nth_error row 6 = Some latitude /\
  forall e latitude_b longitude_b pb gb,
    nth_error m i = Some (Some e) ->
    nth_error b_items (entry_index e)
      = Some (STuple (latitude_b, longitude_b) pb gb) ->
    nth_error row 7 = Some longitude_b /\
    nth_error row 8 = Some latitude_b.
Proof.
  intros Ha H. unfold tabular_row, list_get in H. rewrite Ha in H.
  cbn [bind stored_truthy negb sub0 sub1 fst snd] in H.
  destruct (nth_error m i) as [me|] eqn:Hm; cbn [bind] in H; [|discriminate H].
  destruct me as [e|].
  - destruct (nth_error b_items (entry_index e)) as [item_b|] eqn:Hb;
      cbn [bind] in H.
    + bind_inv H. injection H as <-.
      split; [reflexivity|]. split; [reflexivity|].
      intros e' lat_b lng_b pb' gb' He Hb'. injection He as <-.
      rewrite Hb in Hb'. injection Hb' as ->.
      cbn [sub0 bind fst snd] in *. split; simpl; congruence.
    + bind_inv H. discriminate H.
  - bind_inv H. injection H as <-.
    split; [reflexivity|]. split; [reflexivity|].
    intros; discriminate.
Qed.

(** C7. The columns are swapped: loading the Point at longitude 10 and
    latitude 20 as both A and B, the stored coordinate is
    (latitude 20, longitude 10), and the row has 10 under [latitude_a]
    and [latitude_b] and 20 under [longitude_a] and [longitude_b]. *)
Theorem latitude_columns_hold_longitude (L : Externals) (tolerance : Z) :
  exists gc,
    GeojsonCompare_init L
      (Sample.collection [Sample.point 10 20 []])
      (Sample.collection [Sample.point 10 20 []]) tolerance = Ok gc /\
    items (ds_a gc) = [STuple (JNum 20, JNum 10) JNull JNull] /\
    summary_tabular L (items (ds_a gc)) (items (ds_b gc)) (matrix gc) =
      Ok [header;
          [JStr "A0"; JStr "B0"; JStr ""; JStr ""; JNum 0;
           JNum 10; JNum 20; JNum 10; JNum 20;
           JStr ""; JStr ""; JStr ""]].
Proof.
  eexists. split; [reflexivity|]. split; reflexivity.
Qed.

(* ------------------------------------------------------------------ *)
(** ** The normalizer on Point features *)

Lemma props_from_present (fs : list (string * json)) (key : string) (v : json) :
  Py.assoc key fs = Some v ->
  props_from (JObj fs) key = props_of_value v.
Proof.
  intros H. unfold props_from, props_of_value. cbn [Py.contains Py.getitem bind].
  rewrite H. cbn [bind].
  destruct (Py.truthy v) eqn:Ht; [|reflexivity].
  destruct v as [| | | | |f]; try reflexivity.
  destruct f; [discriminate Ht|reflexivity].
Qed.

Lemma props_from_absent (fs : list (string * json)) (key : string) :
  Py.assoc key fs = None ->
  props_from (JObj fs) key = Ok JNull.
Proof.
  intros H. unfold props_from. cbn [Py.contains bind]. rewrite H. reflexivity.
Qed.

(** what [add_item] stores for a Point feature *)
Lemma normalize_point (L : Externals) (fs gs : list (string * json))
    (lng lat ty : json) (rest : list json) :
  Py.assoc "geometry" fs = Some (JObj gs) ->
  Py.assoc "coordinates" gs = Some (JArr (lng :: lat :: rest)) ->
  Py.assoc "type" gs = Some (JStr "Point") ->
  Py.assoc "type" fs = Some ty ->
  normalize L (JObj fs) =
    (props <- props_from (JObj fs)
                (match Py.assoc "tags" fs with
                 | Some _ => "tags"
                 | None => "properties"
                 end) ;;
     Ok (STuple (lat, lng) props JNull)).
Proof.
  intros Hg Hc Ht Hty. unfold normalize.
  assert (Hfs : Py.truthy (JObj fs) = true).
  { destruct fs; [discriminate Hg|reflexivity]. }
  rewrite Hfs. cbn [negb Py.contains Py.getitem bind].
  rewrite Hg. cbn [negb Py.contains Py.getitem bind].
  rewrite Hc, Hty. cbn [negb bind]. rewrite Ht. cbn [negb bind].
  change (Py.eqb (JStr "Point") (JStr "Point")) with true.
  cbn [negb Py.getindex nth_error bind].
  destruct (Py.assoc "tags" fs); reflexivity.
Qed.

(** C6, amended.  For a Point feature the attribute container is chosen
    by the presence of the [tags] key alone.  When [tags] is present the
    attributes are its value if that is non-empty and absent if it is
    empty, and [properties] is not consulted; when [tags] is not present
    they are the value of [properties] if that is present and non-empty,
    and absent otherwise. *)
Theorem point_attributes_by_key_presence (L : Externals)
    (fs gs : list (string * json)) (lng lat ty : json) (rest : list json) :
  Py.assoc "geometry" fs = Some (JObj gs) ->
  Py.assoc "coordinates" gs = Some (JArr (lng :: lat :: rest)) ->
  Py.assoc "type" gs = Some (JStr "Point") ->
  Py.assoc "type" fs = Some ty ->
  (forall tags,
      Py.assoc "tags" fs = Some tags ->
      normalize L (JObj fs) =
        (props <- props_of_value tags ;; Ok (STuple (lat, lng) props JNull))) /\
  (forall properties,
      Py.assoc "tags" fs = None ->
      Py.assoc "properties" fs = Some properties ->
      normalize L (JObj fs) =
        (props <- props_of_value properties ;; Ok (STuple (lat, lng) props JNull))) /\
  (Py.assoc "tags" fs = None ->
   Py.assoc "properties" fs = None ->
   normalize L (JObj fs) = Ok (STuple (lat, lng) JNull JNull)).
Proof.
  intros Hg Hc Ht Hty.
  rewrite (normalize_point L fs gs lng lat ty rest Hg Hc Ht Hty).
  repeat split.
  - intros tags H. rewrite H, (props_from_present fs "tags" tags H). reflexivity.
  - intros properties Hn H.
    rewrite Hn, (props_from_present fs "properties" properties H). reflexivity.
  - intros Hn H. rewrite Hn, (props_from_absent fs "properties" H). reflexivity.
Qed.

(** the witness: a Point with an empty [tags] and a non-empty
    [properties] *)
Lemma point_attributes_by_key_presence_witness :
  normalize Sample.externals
    (Sample.point 1 2 [("tags", JObj []);
                       ("properties", JObj [("name", JStr "x")])])
  = (props <- props_of_value (JObj []) ;;
     Ok (STuple (JNum 2, JNum 1) props JNull)).
Proof.
  refine (proj1 (point_attributes_by_key_presence Sample.externals
                   _ _ (JNum 1) (JNum 2) (JStr "Feature") [] _ _ _ _)
            (JObj []) _); reflexivity.
Defined.

(** C6, as stated, fails: a Point whose [tags] is present but empty and
    whose [properties] is non-empty is stored without attributes. *)
Lemma empty_tags_hide_properties :
  normalize Sample.externals
    (Sample.point 1 2 [("tags", JObj []);
                       ("properties", JObj [("name", JStr "x")])])
  = Ok (STuple (JNum 2, JNum 1) JNull JNull) /\
  normalize Sample.externals
    (Sample.point 1 2 [("tags", JObj []);
                       ("properties", JObj [("name", JStr "x")])])
  <> Ok (STuple (JNum 2, JNum 1) (JObj [("name", JStr "x")]) JNull).
Proof.
  split; [reflexivity|]. discriminate.
Qed.

(* ------------------------------------------------------------------ *)
(** ** The loader *)

(** C9. A document that is an object is read from its [elements] key
    when it has one and from its [features] key otherwise; with neither
    key the load raises [KeyError], and so does the construction of the
    comparison, whichever of the two documents lacks them.  A document
    that is not an object has neither key, and its load raises too. *)
Theorem load_reads_elements_else_features (L : Externals)
    (fs : list (string * json)) (alias : string) :
  _load_geojson L (JObj fs) alias =
    match Py.assoc "elements" fs with
    | Some arr => load_from L arr alias
    | None =>
        match Py.assoc "features" fs with
        | Some arr => load_from L arr alias
        | None => Raise KeyError
        end
    end /\
  (Py.assoc "elements" fs = None ->
   Py.assoc "features" fs = None ->
   forall other tolerance,
     GeojsonCompare_init L (JObj fs) other tolerance = Raise KeyError /\
     raises (GeojsonCompare_init L other (JObj fs) tolerance)) /\
  (forall doc, (forall fs', doc <> JObj fs') -> raises (_load_geojson L doc alias)).
Proof.
  assert (Hload : forall alias',
             _load_geojson L (JObj fs) alias' =
               match Py.assoc "elements" fs with
               | Some arr => load_from L arr alias'
               | None =>
                   match Py.assoc "features" fs with
                   | Some arr => load_from L arr alias'
                   | None => Raise KeyError
                   end
               end).
  { intros alias'. unfold _load_geojson, load_from.
    cbn [Py.contains Py.getitem bind].
    destruct (Py.assoc "elements" fs) as [arr|] eqn:He; cbn [bind].
    - rewrite He. reflexivity.
    - destruct (Py.assoc "features" fs) as [arr|] eqn:Hf; reflexivity. }
  split; [apply Hload|]. split.
  - intros He Hf other tolerance. unfold GeojsonCompare_init.
    rewrite !Hload, He, Hf. split; [reflexivity|].
    destruct (_load_geojson L other "A"); eexists; reflexivity.
  - intros doc Hdoc. unfold _load_geojson.
    destruct doc as [| | |s|l|fs']; cbn [Py.contains bind];
      try (eexists; reflexivity).
    exfalso. exact (Hdoc fs' eq_refl).
Qed.

(** the witness: a document with neither key *)
Lemma load_reads_elements_else_features_witness :
  _load_geojson Sample.externals (JObj [("type", JStr "FeatureCollection")]) "A"
    = Raise KeyError /\
  GeojsonCompare_init Sample.externals
    (JObj [("type", JStr "FeatureCollection")]) (Sample.collection []) 100
    = Raise KeyError.
Proof.
  destruct (load_reads_elements_else_features Sample.externals
              [("type", JStr "FeatureCollection")] "A") as (Hload & Hinit & _).
  split; [exact Hload|].
  exact (proj1 (Hinit eq_refl eq_refl (Sample.collection []) 100%Z)).
Defined.

(* ------------------------------------------------------------------ *)
(** ** More on the matching engine *)

(** an exception of the scan comes from [haversine] alone: it does not
    depend on the state or on the index the scan starts from *)
Lemma scan_raise_indep (L : Externals) (tol : Z) (item_a : stored)
    (coords_a : json * json) (bs : list stored) :
  forall k st e k' st',
    scan L tol item_a coords_a bs k st = Raise e ->
    scan L tol item_a coords_a bs k' st' = Raise e.
Proof.
  induction bs as [|item_b bs IH]; intros k st e k' st' H; [discriminate H|].
  simpl scan in *.
  destruct (exact_test item_a coords_a item_b) eqn:Hex.
  - rewrite (scan_step_exact L tol item_a coords_a st k item_b Hex) in H.
    rewrite (scan_step_exact L tol item_a coords_a st' k' item_b Hex).
    cbn [bind] in *. eapply IH. exact H.
  - destruct item_b as [| |cb pb gb].
    + cbn [scan_step bind] in *. eapply IH. exact H.
    + cbn [scan_step bind] in *. eapply IH. exact H.
    + rewrite (scan_step_other L tol item_a coords_a st k cb pb gb Hex) in H.
      rewrite (scan_step_other L tol item_a coords_a st' k' cb pb gb Hex).
      destruct (haversine L coords_a cb) as [d|e']; cbn [bind] in *.
      * destruct (Qle_bool d (inject_Z tol)); cbn [bind] in *; eapply IH; exact H.
      * exact H.
Qed.

Lemma compute_iter_raise_indep (L : Externals) (tol : Z) (b_items : list stored)
    (item_a : stored) (m m' : list (option entry)) (e : pyerr) :
  compute_iter L tol b_items m item_a = Raise e ->
  compute_iter L tol b_items m' item_a = Raise e.
Proof.
  intros H. destruct item_a as [| |ca pa ga]; try discriminate H.
  unfold compute_iter in *.
  destruct (scan L tol (STuple ca pa ga) ca b_items 0
              {| st_matrix := m; st_found := false; st_candidates := [] |})
    as [st|e'] eqn:Hs.
  - exfalso. pose proof (scan_returns _ _ _ _ _ _ _ _ Hs) as Hd.
    pose proof (compute_iter_defined L tol b_items (STuple ca pa ga) m Hd) as Hc.
    unfold compute_iter in Hc. rewrite Hs in Hc. congruence.
  - cbn [bind] in H. injection H as <-.
    rewrite (scan_raise_indep _ _ _ _ _ _ _ _ 0%nat
               {| st_matrix := m'; st_found := false; st_candidates := [] |} Hs).
    reflexivity.
Qed.

(** the table built on top of [m] is [m] followed by the table built
    from nothing *)
Lemma compute_from_shift (L : Externals) (tol : Z) (b_items a_items : list stored) :
  forall m,
    compute_from L tol a_items b_items m =
      (r <- compute_from L tol a_items b_items [] ;; Ok (m ++ r)).
Proof.
  induction a_items as [|x rest IH]; intros m.
  - simpl. rewrite app_nil_r. reflexivity.
  - simpl compute_from.
    destruct (compute_iter L tol b_items m x) as [m1|e] eqn:Hi.
    + pose proof (compute_iter_returns _ _ _ _ _ _ Hi) as Hd.
      apply compute_iter_spec in Hi. subst m1.
      rewrite (compute_iter_defined L tol b_items x [] Hd). cbn [bind app].
      rewrite (IH (m ++ row_of L tol b_items x)), (IH (row_of L tol b_items x)).
      destruct (compute_from L tol rest b_items []) as [r|e]; cbn [bind];
        [rewrite app_assoc|]; reflexivity.
    + rewrite (compute_iter_raise_indep _ _ _ _ _ [] _ Hi). reflexivity.
Qed.

Lemma compute_from_app (L : Externals) (tol : Z) (b_items a1 a2 : list stored) :
  forall m,
    compute_from L tol (a1 ++ a2) b_items m =
      (m1 <- compute_from L tol a1 b_items m ;; compute_from L tol a2 b_items m1).
Proof.
  induction a1 as [|x a1 IH]; intros m; [reflexivity|].
  simpl. destruct (compute_iter L tol b_items m x); cbn [bind]; [apply IH|reflexivity].
Qed.

(** X1. The table of a concatenated A is the table of the first part
    followed by the table of the second part; an exception of either
    part, the first one first, is the exception of the whole. *)
Theorem compute_concatenates (L : Externals) (tol : Z)
    (a1 a2 b_items : list stored) :
  compute L tol (a1 ++ a2) b_items =
    (m1 <- compute L tol a1 b_items ;;
     m2 <- compute L tol a2 b_items ;;
     Ok (m1 ++ m2)).
Proof.
  unfold compute. rewrite compute_from_app.
  destruct (compute_from L tol a1 b_items []) as [m1|e]; cbn [bind]; [|reflexivity].
  apply compute_from_shift.
Qed.

Lemma no_tuple_rows (L : Externals) (tol : Z) (b_items : list stored) (x : stored) :
  (forall s, In s b_items -> stored_truthy s = false) ->
  row_defined L b_items x /\ row_of L tol b_items x = [None].
Proof.
  intros Hb.
  assert (Hnth : forall j s, nth_error b_items j = Some s -> stored_truthy s = false).
  { intros j s Hn. apply Hb. eapply nth_error_In. exact Hn. }
  destruct x as [| |ca pa ga]; simpl; auto. split.
  - intros cb pb gb Hin _. apply Hb in Hin. discriminate Hin.
  - rewrite (exact_hits_none (STuple ca pa ga) ca b_items 0).
    2:{ intros j s Hn. apply Hnth in Hn. destruct s; [reflexivity|reflexivity|discriminate Hn]. }
    destruct (near_hits L tol (STuple ca pa ga) ca b_items 0) as [|[d j] nc] eqn:Hnc;
      [reflexivity|].
    assert (Hin : In (d, j) (near_hits L tol (STuple ca pa ga) ca b_items 0))
      by (rewrite Hnc; left; reflexivity).
    apply near_hits_iff in Hin. destruct Hin as (cb & pb & gb & Hn & _).
    apply Hnth in Hn. discriminate Hn.
Qed.

(** X2. When B holds no valid record (it is empty, or all placeholders)
    the table is one [None] per A record, and [haversine] is never
    asked: this holds whatever [haversine] does. *)
Theorem no_valid_b_all_none (L : Externals) (tol : Z) (a_items b_items : list stored) :
  (forall s, In s b_items -> stored_truthy s = false) ->
  compute L tol a_items b_items = Ok (repeat None (List.length a_items)).
Proof.
  intros Hb.
  assert (Hd : Forall (row_defined L b_items) a_items).
  { apply Forall_forall. intros x _. apply (no_tuple_rows L tol b_items x Hb). }
  rewrite (compute_defined L tol b_items a_items Hd). f_equal.
  clear Hd. induction a_items as [|x rest IH]; [reflexivity|].
  simpl. rewrite (proj2 (no_tuple_rows L tol b_items x Hb)), IH. reflexivity.
Qed.

(** an instance: two A records against a B of two placeholders *)
Lemma no_valid_b_all_none_witness :
  compute Sample.externals 100 [Sample.at_ 0 0; SFalse] [SNone; SFalse]
    = Ok [None; None].
Proof.
  apply (no_valid_b_all_none Sample.externals 100 [Sample.at_ 0 0; SFalse]
           [SNone; SFalse]).
  intros s [<-|[<-|[]]]; reflexivity.
Defined.

(** every entry of a row is justified by the A record of the row and
    the B record it names *)
Lemma row_entry_justified (L : Externals) (tol : Z) (b_items : list stored)
    (x : stored) (e : entry) :
  In (Some e) (row_of L tol b_items x) ->
  exists ca pa ga cb pb gb,
    x = STuple ca pa ga /\
    nth_error b_items (entry_index e) = Some (STuple cb pb gb) /\
    ((entry_kind e = MATCH_EXACT /\ coords_eqb ca cb = true /\
      entry_dist e = 0%Q /\ entry_skiped e = None) \/
     (entry_kind e = MATCH_NEAR /\ coords_eqb ca cb = false /\
      haversine L ca cb = Ok (entry_dist e) /\
      (entry_dist e <= inject_Z tol)%Q)).
Proof.
  destruct x as [| |ca pa ga]; simpl.
  - intros [H|[]]. discriminate.
  - intros [H|[]]. discriminate.
  - intros H. apply in_app_or in H. destruct H as [H|H].
    + apply in_map_iff in H. destruct H as (j & Hj & Hin).
      injection Hj as <-. apply exact_hits_In in Hin.
      destruct Hin as (j0 & s & -> & Hn & Hex).
      destruct (exact_test_tuple _ _ _ Hex) as (cb & pb & gb & ->).
      rewrite exact_test_coords in Hex.
      exists ca, pa, ga, cb, pb, gb. repeat split; [exact Hn|].
      left. repeat split. exact Hex.
    + apply in_app_or in H. destruct H as [H|H].
      * unfold near_entry in H.
        destruct (sorted_by_dist _) as [|[d j] r] eqn:Hs; [destruct H|].
        destruct H as [H|[]]. injection H as <-.
        destruct (sorted_by_dist_head _ _ _ Hs) as (l1 & l2 & Hl & _).
        assert (Hin : In (d, j) (near_hits L tol (STuple ca pa ga) ca b_items 0)).
        { rewrite Hl. apply in_or_app. right. left. reflexivity. }
        apply near_hits_iff in Hin.
        destruct Hin as (cb & pb & gb & Hn & Hc & Hh & Hle).
        exists ca, pa, ga, cb, pb, gb. repeat split; [exact Hn|].
        right. repeat split; assumption.
      * destruct (_ || _); [destruct H|]. destruct H as [H|[]]. discriminate.
Qed.

(** X3. Provided [haversine] returns where the scan calls it, [compute]
    returns, and every entry of its table that is not [None] is
    justified by a valid A record and the valid B record it names:
    an EXACT entry has distance 0, no alternates and equal coordinates;
    a NEAR entry has unequal coordinates and carries the distance
    [haversine] returned, which is within the tolerance. *)
Theorem table_entries_justified (L : Externals) (tol : Z)
    (a_items b_items : list stored) :
  Forall (row_defined L b_items) a_items ->
  exists m,
    compute L tol a_items b_items = Ok m /\
    forall e, In (Some e) m ->
      exists ca pa ga cb pb gb,
        In (STuple ca pa ga) a_items /\
        nth_error b_items (entry_index e) = Some (STuple cb pb gb) /\
        ((entry_kind e = MATCH_EXACT /\ coords_eqb ca cb = true /\
          entry_dist e = 0%Q /\ entry_skiped e = None) \/
         (entry_kind e = MATCH_NEAR /\ coords_eqb ca cb = false /\
          haversine L ca cb = Ok (entry_dist e) /\
          (entry_dist e <= inject_Z tol)%Q)).
Proof.
  intros Hd. eexists. split; [apply compute_defined; exact Hd|].
  intros e He. apply in_flat_map in He. destruct He as (x & Hx & Hin).
  destruct (row_entry_justified L tol b_items x e Hin)
    as (ca & pa & ga & cb & pb & gb & -> & Hb & Hk).
  exists ca, pa, ga, cb, pb, gb. auto.
Qed.

(** an instance: one A record, one B record 111.195 m away, 150 m *)
Lemma table_entries_justified_witness :
  exists m,
    compute Sample.externals 150 [Sample.at_ 0 0] [Sample.at_ 0 (1 # 1000)] = Ok m /\
    forall e, In (Some e) m ->
      (entry_index e < 1)%nat.
Proof.
  destruct (table_entries_justified Sample.externals 150
              [Sample.at_ 0 0] [Sample.at_ 0 (1 # 1000)]) as (m & Hm & Hall).
  - repeat constructor. intros cb pb gb [H|[]] _.
    injection H as <- <- <-. eexists. reflexivity.
  - exists m. split; [exact Hm|]. intros e He.
    destruct (Hall e He) as (ca & pa & ga & cb & pb & gb & _ & Hn & _).
    assert (Hlt : (entry_index e < List.length [Sample.at_ 0 (1 # 1000)])%nat).
    { apply nth_error_Some. rewrite Hn. discriminate. }
    exact Hlt.
Defined.

(** X4. Every valid B record whose coordinates equal those of a valid
    A record gets an EXACT entry of its own in the table, with distance
    0, whatever the attributes and original geometries of the two. *)
Theorem equal_coordinates_give_exact_entry (L : Externals) (tol : Z)
    (a_items b_items : list stored) (j : nat)
    (ca cb : json * json) (pa ga pb gb : json) :
  Forall (row_defined L b_items) a_items ->
  In (STuple ca pa ga) a_items ->
  nth_error b_items j = Some (STuple cb pb gb) ->
  coords_eqb ca cb = true ->
  exists m,
    compute L tol a_items b_items = Ok m /\
    In (Some (j, MATCH_EXACT, 0%Q, None)) m.
Proof.
  intros Hd Ha Hb Hc. eexists. split; [apply compute_defined; exact Hd|].
  apply in_flat_map. exists (STuple ca pa ga). split; [exact Ha|].
  simpl. apply in_or_app. left.
  apply in_map_iff. exists j. split; [reflexivity|].
  apply exact_hits_In. exists j, (STuple cb pb gb).
  repeat split; [exact Hb|]. rewrite exact_test_coords. exact Hc.
Qed.

(** an instance: same point, different attributes *)
Lemma equal_coordinates_give_exact_entry_witness :
  exists m,
    compute Sample.externals 100
      [STuple (JNum 0, JNum 0) (JObj [("id", JStr "a1")]) JNull]
      [STuple (JNum 0, JNum 0) (JObj [("id", JStr "b1")]) JNull] = Ok m /\
    In (Some (0%nat, MATCH_EXACT, 0%Q, None)) m.
Proof.
  apply (equal_coordinates_give_exact_entry Sample.externals 100
           [STuple (JNum 0, JNum 0) (JObj [("id", JStr "a1")]) JNull]
           [STuple (JNum 0, JNum 0) (JObj [("id", JStr "b1")]) JNull] 0
           (JNum 0, JNum 0) (JNum 0, JNum 0)
           (JObj [("id", JStr "a1")]) JNull (JObj [("id", JStr "b1")]) JNull).
  - repeat constructor. intros cb pb gb [H|[]] Hex.
    injection H as <- <- <-. discriminate Hex.
  - left. reflexivity.
  - reflexivity.
  - reflexivity.
Defined.

(** X5. A valid A record is left unmatched, that is, its pass appends
    the single entry [None], exactly when no valid B record has its
    coordinates or lies within the tolerance. *)
Theorem unmatched_iff_no_b_qualifies (L : Externals) (tol : Z)
    (b_items : list stored) (m0 : list (option entry))
    (ca : json * json) (pa ga : json) :
  hav_defined L (STuple ca pa ga) ca b_items ->
  (compute_iter L tol b_items m0 (STuple ca pa ga) = Ok (m0 ++ [None]) <->
   forall j cb pb gb,
     nth_error b_items j = Some (STuple cb pb gb) ->
     coords_eqb ca cb = false /\
     forall d, haversine L ca cb = Ok d -> ~ (d <= inject_Z tol)%Q).
Proof.
  intros Hd.
  rewrite (compute_iter_defined L tol b_items (STuple ca pa ga) m0 Hd).
  simpl row_of.
  set (ex := exact_hits (STuple ca pa ga) ca b_items 0).
  set (nc := near_hits L tol (STuple ca pa ga) ca b_items 0).
  split.
  - intros H. injection H as H. apply app_inv_head in H.
    assert (Hex : ex = []).
    { destruct ex as [|j0 ex']; [reflexivity|]. simpl in H. discriminate H. }
    assert (Hnc : nc = []).
    { rewrite Hex in H. simpl in H. unfold near_entry in H.
      destruct nc as [|c nc'] eqn:E; [reflexivity|].
      destruct (sorted_by_dist (c :: nc')) as [|[d j0] r] eqn:Hs.
      - apply sorted_by_dist_nil in Hs. discriminate Hs.
      - simpl in H. discriminate H. }
    intros j cb pb gb Hb.
    assert (Hc : coords_eqb ca cb = false).
    { destruct (coords_eqb ca cb) eqn:Hc; [|reflexivity].
      assert (Hin : In j ex).
      { apply exact_hits_In. exists j, (STuple cb pb gb).
        repeat split; [exact Hb|]. rewrite exact_test_coords. exact Hc. }
      rewrite Hex in Hin. destruct Hin. }
    split; [exact Hc|]. intros d Hh Hle.
    assert (Hin : In (d, j) nc).
    { apply near_hits_iff. exists cb, pb, gb. auto. }
    rewrite Hnc in Hin. destruct Hin.
  - intros Hno.
    assert (Hex : ex = []).
    { apply exact_hits_none. intros j s Hn.
      destruct s as [| |cb pb gb]; try reflexivity.
      rewrite exact_test_coords. apply (Hno j cb pb gb Hn). }
    assert (Hnc : nc = []).
    { destruct nc as [|[d j] nc'] eqn:E; [reflexivity|].
      assert (Hin : In (d, j) nc) by (rewrite E; left; reflexivity).
      apply near_hits_iff in Hin.
      destruct Hin as (cb & pb & gb & Hn & _ & Hh & Hle).
      exfalso. exact (proj2 (Hno j cb pb gb Hn) d Hh Hle). }
    rewrite Hex, Hnc. reflexivity.
Qed.

(** an instance: the only B record is one degree away, at 100 m *)
Lemma unmatched_iff_no_b_qualifies_witness :
  compute_iter Sample.externals 100 [Sample.at_ 0 1] [] (Sample.at_ 0 0)
    = Ok ([] ++ [None]) <->
  forall j cb pb gb,
    nth_error [Sample.at_ 0 1] j = Some (STuple cb pb gb) ->
    coords_eqb (JNum 0, JNum 0) cb = false /\
    forall d, haversine Sample.externals (JNum 0, JNum 0) cb = Ok d ->
              ~ (d <= inject_Z 100)%Q.
Proof.
  apply (unmatched_iff_no_b_qualifies Sample.externals 100 [Sample.at_ 0 1] []
           (JNum 0, JNum 0) JNull JNull).
  intros cb pb gb [H|[]] _. injection H as <- <- <-. eexists. reflexivity.
Defined.

Lemma flat_map_singletons {A B : Type} (f : A -> list B) (l : list A) :
  (forall x, In x l -> exists y, f x = [y]) ->
  List.length (flat_map f l) = List.length l /\
  forall i x, nth_error l i = Some x ->
    exists y, f x = [y] /\ nth_error (flat_map f l) i = Some y.
Proof.
  induction l as [|z l IH]; intros Hs.
  - split; [reflexivity|]. intros i x H. destruct i; discriminate H.
  - destruct (Hs z (or_introl eq_refl)) as [y Hy].
    destruct IH as [IHlen IHnth]; [intros x Hx; apply Hs; right; exact Hx|].
    simpl. rewrite Hy. simpl. split; [rewrite IHlen; reflexivity|].
    intros i x H. destruct i as [|i]; simpl in H.
    + injection H as <-. exists y. split; [exact Hy|reflexivity].
    + simpl. apply IHnth. exact H.
Qed.

Lemma row_singleton (L : Externals) (tol : Z) (b_items : list stored) (x : stored) :
  (forall ca pa ga cb pb gb,
      x = STuple ca pa ga -> In (STuple cb pb gb) b_items ->
      coords_eqb ca cb = false) ->
  exists y, row_of L tol b_items x = [y].
Proof.
  intros Hno. destruct x as [| |ca pa ga]; simpl; eauto.
  rewrite (exact_hits_none (STuple ca pa ga) ca b_items 0).
  2:{ intros j s Hn. destruct s as [| |cb pb gb]; try reflexivity.
      rewrite exact_test_coords.
      apply (Hno ca pa ga cb pb gb eq_refl). eapply nth_error_In. exact Hn. }
  unfold near_entry.
  destruct (near_hits L tol (STuple ca pa ga) ca b_items 0) as [|c nc] eqn:Hnc.
  - simpl. eauto.
  - destruct (sorted_by_dist (c :: nc)) as [|[d j] r] eqn:Hs.
    + apply sorted_by_dist_nil in Hs. discriminate Hs.
    + simpl. eauto.
Qed.

(** X6. When no valid A record shares its coordinates with a valid B
    record, the table has exactly one entry per A record, and the entry
    at index [i] is the one A[i] gets when it is matched on its own. *)
Theorem no_shared_coordinates_aligned (L : Externals) (tol : Z)
    (a_items b_items : list stored) :
  Forall (row_defined L b_items) a_items ->
  (forall ca pa ga cb pb gb,
      In (STuple ca pa ga) a_items -> In (STuple cb pb gb) b_items ->
      coords_eqb ca cb = false) ->
  exists m,
    compute L tol a_items b_items = Ok m /\
    List.length m = List.length a_items /\
    forall i x, nth_error a_items i = Some x ->
      exists y, nth_error m i = Some y /\ compute L tol [x] b_items = Ok [y].
Proof.
  intros Hd Hno.
  destruct (flat_map_singletons (row_of L tol b_items) a_items) as [Hlen Hnth].
  { intros x Hx. apply row_singleton. intros ca pa ga cb pb gb -> Hb.
    exact (Hno ca pa ga cb pb gb Hx Hb). }
  eexists. split; [apply compute_defined; exact Hd|]. split; [exact Hlen|].
  intros i x Hx. destruct (Hnth i x Hx) as (y & Hy & Hm).
  exists y. split; [exact Hm|].
  rewrite (compute_defined L tol b_items [x]).
  - simpl. rewrite app_nil_r, Hy. reflexivity.
  - constructor; [|constructor].
    eapply Forall_forall; [exact Hd|]. eapply nth_error_In. exact Hx.
Qed.

(** an instance: two A records, one B record near the first *)
Lemma no_shared_coordinates_aligned_witness :
  exists m,
    compute Sample.externals 150 [Sample.at_ 0 0; Sample.at_ 0 5]
      [Sample.at_ 0 (1 # 1000)] = Ok m /\
    List.length m = 2%nat.
Proof.
  destruct (no_shared_coordinates_aligned Sample.externals 150
              [Sample.at_ 0 0; Sample.at_ 0 5] [Sample.at_ 0 (1 # 1000)])
    as (m & Hm & Hlen & _).
  - repeat constructor; intros cb pb gb [H|[]] _;
      injection H as <- <- <-; eexists; reflexivity.
  - intros ca pa ga cb pb gb [Ha|[Ha|[]]] [Hb|[]];
      injection Ha as <- <- <-; injection Hb as <- <- <-; reflexivity.
  - exists m. split; [exact Hm|exact Hlen].
Defined.

(** X7. A wider tolerance keeps every NEAR candidate of an A record,
    and the EXACT entries of its scan do not depend on the tolerance. *)
Theorem wider_tolerance_keeps_candidates (L : Externals) (tol tol' : Z)
    (b_items : list stored) (m0 : list (option entry))
    (ca : json * json) (pa ga : json) :
  hav_defined L (STuple ca pa ga) ca b_items ->
  (tol <= tol')%Z ->
  exists st st',
    scan L tol (STuple ca pa ga) ca b_items 0
      {| st_matrix := m0; st_found := false; st_candidates := [] |} = Ok st /\
    scan L tol' (STuple ca pa ga) ca b_items 0
      {| st_matrix := m0; st_found := false; st_candidates := [] |} = Ok st' /\
    st_matrix st' = st_matrix st /\
    forall c, In c (st_candidates st) -> In c (st_candidates st').
Proof.
  intros Hd Hle. eexists. eexists.
  split; [apply scan_defined; exact Hd|].
  split; [apply scan_defined; exact Hd|].
  split; [reflexivity|].
  intros [d j]. unfold scan_result. cbn [st_candidates app].
  rewrite !near_hits_iff.
  intros (cb & pb & gb & Hn & Hc & Hh & Hd').
  exists cb, pb, gb. repeat split; try assumption.
  eapply Qle_trans; [exact Hd'|]. rewrite <- Zle_Qle. exact Hle.
Qed.

(** an instance: from 100 m to 150 m *)
Lemma wider_tolerance_keeps_candidates_witness :
  exists st st',
    scan Sample.externals 100 (Sample.at_ 0 0) (JNum 0, JNum 0)
      [Sample.at_ 0 (1 # 1000)] 0
      {| st_matrix := []; st_found := false; st_candidates := [] |} = Ok st /\
    scan Sample.externals 150 (Sample.at_ 0 0) (JNum 0, JNum 0)
      [Sample.at_ 0 (1 # 1000)] 0
      {| st_matrix := []; st_found := false; st_candidates := [] |} = Ok st' /\
    st_matrix st' = st_matrix st /\
    forall c, In c (st_candidates st) -> In c (st_candidates st').
Proof.
  apply (wider_tolerance_keeps_candidates Sample.externals 100 150
           [Sample.at_ 0 (1 # 1000)] [] (JNum 0, JNum 0) JNull JNull).
  - intros cb pb gb [H|[]] _. injection H as <- <- <-. eexists. reflexivity.
  - discriminate.
Defined.

(* ------------------------------------------------------------------ *)
(** ** More on the normalizer and the loader *)

(** X8. The guard of [add_item] stores the [False] placeholder,
    without raising, for a feature that is falsy (an empty object,
    [null], ...), for an object without a [geometry] member, for one
    whose geometry is a container (an object, an array or a string)
    that does not contain [coordinates], and for one whose geometry
    contains [coordinates] but which has no [type] member of its own.
    It does not cover a geometry that is [null], a boolean or a
    number: the membership test on it raises [TypeError], whatever
    else the feature has. *)
Theorem incomplete_feature_is_false (L : Externals) :
  (forall item, Py.truthy item = false -> normalize L item = Ok SFalse) /\
  (forall fs, Py.assoc "geometry" fs = None -> normalize L (JObj fs) = Ok SFalse) /\
  (forall fs geometry,
      Py.assoc "geometry" fs = Some geometry ->
      Py.contains "coordinates" geometry = Ok false ->
      normalize L (JObj fs) = Ok SFalse) /\
  (forall fs geometry,
      Py.assoc "geometry" fs = Some geometry ->
      Py.contains "coordinates" geometry = Ok true ->
      Py.assoc "type" fs = None ->
      normalize L (JObj fs) = Ok SFalse) /\
  (forall fs geometry,
      Py.assoc "geometry" fs = Some geometry ->
      (geometry = JNull \/ (exists b, geometry = JBool b)
       \/ (exists q, geometry = JNum q)) ->
      normalize L (JObj fs) = Raise TypeError).
Proof.
  assert (Hfs : forall fs geometry,
             Py.assoc "geometry" fs = Some geometry ->
             Py.truthy (JObj fs) = true).
  { intros fs geometry H. destruct fs; [discriminate H|reflexivity]. }
  repeat split.
  - intros item H. unfold normalize. rewrite H. reflexivity.
  - intros fs H. unfold normalize.
    destruct (Py.truthy (JObj fs)); [|reflexivity].
    cbn [negb Py.contains bind]. rewrite H. reflexivity.
  - intros fs geometry Hg Hc. unfold normalize. rewrite (Hfs fs geometry Hg).
    cbn [negb Py.contains Py.getitem bind]. rewrite Hg.
    cbn [negb bind]. rewrite Hc. reflexivity.
  - intros fs geometry Hg Hc Ht. unfold normalize. rewrite (Hfs fs geometry Hg).
    cbn [negb Py.contains Py.getitem bind]. rewrite Hg.
    cbn [negb bind]. rewrite Hc. cbn [negb bind]. rewrite Ht. reflexivity.
  - intros fs geometry Hg Hbad. unfold normalize. rewrite (Hfs fs geometry Hg).
    cbn [negb Py.contains Py.getitem bind]. rewrite Hg. cbn [negb bind].
    destruct Hbad as [->|[[b ->]|[q ->]]]; reflexivity.
Qed.

(** two instances: a feature with properties but no geometry, and one
    whose geometry is [null] *)
Lemma incomplete_feature_is_false_witness :
  normalize Sample.externals
    (JObj [("type", JStr "Feature"); ("properties", JObj [("name", JStr "x")])])
  = Ok SFalse /\
  normalize Sample.externals
    (JObj [("type", JStr "Feature"); ("geometry", JNull)])
  = Raise TypeError.
Proof.
  destruct (incomplete_feature_is_false Sample.externals)
    as (_ & Hnone & _ & _ & Hbad).
  split.
  - apply Hnone. reflexivity.
  - apply (Hbad _ JNull); [reflexivity|left; reflexivity].
Defined.

(** X9. The geometry's own [type] is read without a test: a feature
    whose geometry has [coordinates] but no [type] member raises
    [KeyError], and one such feature anywhere in the array makes the
    whole load raise. *)
Theorem untyped_geometry_aborts_load (L : Externals)
    (fs gs : list (string * json)) (coordinates ty : json)
    (data : DatasetInMemory) (before after : list json) :
  Py.assoc "geometry" fs = Some (JObj gs) ->
  Py.assoc "coordinates" gs = Some coordinates ->
  Py.assoc "type" fs = Some ty ->
  Py.assoc "type" gs = None ->
  normalize L (JObj fs) = Raise KeyError /\
  raises (add_items L data (before ++ JObj fs :: after)).
Proof.
  intros Hg Hc Hty Ht.
  assert (Hn : normalize L (JObj fs) = Raise KeyError).
  { unfold normalize.
    assert (Hfs : Py.truthy (JObj fs) = true).
    { destruct fs; [discriminate Hg|reflexivity]. }
    rewrite Hfs. cbn [negb Py.contains Py.getitem bind]. rewrite Hg.
    cbn [negb Py.contains Py.getitem bind]. rewrite Hc, Hty.
    cbn [negb bind]. rewrite Ht. reflexivity. }
  split; [exact Hn|].
  revert data. induction before as [|f before IH]; intros data; simpl.
  - unfold add_item. rewrite Hn. eexists. reflexivity.
  - destruct (add_item L data f) as [data'|e]; cbn [bind].
    + apply IH.
    + eexists. reflexivity.
Qed.

(** an instance: a good Point, then a geometry without a type *)
Lemma untyped_geometry_aborts_load_witness :
  raises (add_items Sample.externals (DatasetInMemory_init "A")
            ([Sample.point 0 0 []]
               ++ JObj [("type", JStr "Feature");
                        ("geometry", JObj [("coordinates", JArr [JNum 0; JNum 0])])]
               :: [])).
Proof.
  refine (proj2 (untyped_geometry_aborts_load Sample.externals _
                   [("coordinates", JArr [JNum 0; JNum 0])]
                   (JArr [JNum 0; JNum 0]) (JStr "Feature")
                   (DatasetInMemory_init "A") [Sample.point 0 0 []] [] _ _ _ _));
    reflexivity.
Defined.

(** X10. A feature whose geometry type is neither ["Point"] nor
    ["Polygon"] is stored as the [None] placeholder, whatever its
    coordinates and attributes are. *)
Theorem other_geometry_is_none (L : Externals)
    (fs gs : list (string * json)) (coordinates ty gtype : json) :
  Py.assoc "geometry" fs = Some (JObj gs) ->
  Py.assoc "coordinates" gs = Some coordinates ->
  Py.assoc "type" fs = Some ty ->
  Py.assoc "type" gs = Some gtype ->
  Py.eqb gtype (JStr "Point") = false ->
  Py.eqb gtype (JStr "Polygon") = false ->
  normalize L (JObj fs) = Ok SNone.
Proof.
  intros Hg Hc Hty Ht Hp1 Hp2. unfold normalize.
  assert (Hfs : Py.truthy (JObj fs) = true).
  { destruct fs; [discriminate Hg|reflexivity]. }
  rewrite Hfs. cbn [negb Py.contains Py.getitem bind]. rewrite Hg.
  cbn [negb Py.contains Py.getitem bind]. rewrite Hc, Hty.
  cbn [negb bind]. rewrite Ht. cbn [negb bind]. rewrite Hp1, Hp2. reflexivity.
Qed.

(** an instance: a LineString *)
Lemma other_geometry_is_none_witness :
  normalize Sample.externals
    (JObj [("type", JStr "Feature");
           ("geometry", JObj [("type", JStr "LineString");
                              ("coordinates", JArr [])])])
  = Ok SNone.
Proof.
  apply (other_geometry_is_none Sample.externals _
           [("type", JStr "LineString"); ("coordinates", JArr [])]
           (JArr []) (JStr "Feature") (JStr "LineString")); reflexivity.
Defined.

(** X11. A Polygon feature is stored with the centroid of its first
    ring, latitude (y) first, with the geometry object as it came, and
    with attributes taken from [properties] alone: a [tags] member is
    not looked at. *)
Theorem polygon_is_centroid_with_geometry (L : Externals)
    (fs gs : list (string * json)) (coordinates ring ty : json) (x y : Q) :
  Py.assoc "geometry" fs = Some (JObj gs) ->
  Py.assoc "coordinates" gs = Some coordinates ->
  Py.assoc "type" fs = Some ty ->
  Py.assoc "type" gs = Some (JStr "Polygon") ->
  Py.getindex coordinates 0 = Ok ring ->
  polygon_centroid L ring = Ok (x, y) ->
  normalize L (JObj fs) =
    (props <- match Py.assoc "properties" fs with
              | Some v => props_of_value v
              | None => Ok JNull
              end ;;
     Ok (STuple (JNum y, JNum x) props (JObj gs))).
Proof.
  intros Hg Hc Hty Ht Hr Hcen. unfold normalize.
  assert (Hfs : Py.truthy (JObj fs) = true).
  { destruct fs; [discriminate Hg|reflexivity]. }
  rewrite Hfs. cbn [negb Py.contains Py.getitem bind]. rewrite Hg.
  cbn [negb Py.contains Py.getitem bind]. rewrite Hc, Hty.
  cbn [negb bind]. rewrite Ht. cbn [negb bind].
  change (Py.eqb (JStr "Polygon") (JStr "Point")) with false.
  change (Py.eqb (JStr "Polygon") (JStr "Polygon")) with true.
  cbn [negb bind]. rewrite Hr. cbn [bind]. rewrite Hcen. cbn [bind].
  destruct (Py.assoc "properties" fs) as [v|] eqn:Hp.
  - rewrite (props_from_present fs "properties" v Hp). reflexivity.
  - rewrite (props_from_absent fs "properties" Hp). reflexivity.
Qed.

(** an instance: the square with corners (0, 0) and (2, 2), carrying
    both [tags] and [properties] *)
Lemma polygon_is_centroid_with_geometry_witness :
  normalize Shapes.externals
    (JObj [("type", JStr "Feature");
           ("geometry", JObj Shapes.square_geometry);
           ("tags", JObj [("name", JStr "t")]);
           ("properties", JObj [("name", JStr "p")])])
  = Ok (STuple (JNum 1, JNum 1) (JObj [("name", JStr "p")])
          (JObj Shapes.square_geometry)).
Proof.
  exact (polygon_is_centroid_with_geometry Shapes.externals
           [("type", JStr "Feature");
            ("geometry", JObj Shapes.square_geometry);
            ("tags", JObj [("name", JStr "t")]);
            ("properties", JObj [("name", JStr "p")])]
           Shapes.square_geometry (JArr [Shapes.square]) Shapes.square
           (JStr "Feature") 1 1
           eq_refl eq_refl eq_refl eq_refl eq_refl eq_refl).
Defined.

Lemma add_items_iff (L : Externals) (feats : list json) :
  forall data d,
    add_items L data feats = Ok d <->
    exists ss,
      Forall2 (fun f s => normalize L f = Ok s) feats ss /\
      d = {| alias := alias data;
             index := (index data + Z.of_nat (List.length feats))%Z;
             items := items data ++ ss |}.
Proof.
  induction feats as [|f feats IH]; intros data d.
  - simpl. split.
    + intros H. injection H as <-. exists []. split; [constructor|].
      destruct data. simpl. rewrite Z.add_0_r, app_nil_r. reflexivity.
    + intros (ss & Hf & ->). inversion Hf. subst.
      destruct data. simpl. rewrite Z.add_0_r, app_nil_r. reflexivity.
  - cbn [add_items]. unfold add_item.
    destruct (normalize L f) as [s|e] eqn:Hn; cbn [bind].
    + rewrite IH. cbn [alias index items]. split.
      * intros (ss & Hf & ->). exists (s :: ss). split; [constructor; assumption|].
        rewrite <- app_assoc. cbn [List.length app]. f_equal. lia.
      * intros (ss & Hf & ->). inversion Hf as [|f0 s0 l l' Hs Hrest]; subst.
        rewrite Hn in Hs. injection Hs as <-.
        exists l'. split; [exact Hrest|].
        rewrite <- app_assoc. cbn [List.length app]. f_equal. lia.
    + split; [discriminate|].
      intros (ss & Hf & _). inversion Hf as [|f0 s0 l l' Hs Hrest]; subst.
      rewrite Hn in Hs. discriminate Hs.
Qed.

(** X12. Loading keeps the order and the positions of the features:
    the load of a [features] array returns exactly when the normalizer
    returns on every element, and then the items are the stored forms
    of the elements, one per element and in array order, and [index] is
    the index of the last item. *)
Theorem load_keeps_order (L : Externals) (fs : list (string * json))
    (feats : list json) (name : string) (d : DatasetInMemory) :
  Py.assoc "elements" fs = None ->
  Py.assoc "features" fs = Some (JArr feats) ->
  (_load_geojson L (JObj fs) name = Ok d <->
   exists ss,
     Forall2 (fun f s => normalize L f = Ok s) feats ss /\
     d = {| alias := name;
            index := (Z.of_nat (List.length feats) - 1)%Z;
            items := ss |}).
Proof.
  intros He Hf. unfold _load_geojson. cbn [Py.contains Py.getitem bind].
  rewrite He. cbn [bind]. rewrite Hf. cbn [Py.iter bind].
  rewrite add_items_iff. cbn [DatasetInMemory_init alias index items app].
  split; intros (ss & H & ->); exists ss; (split; [exact H|]); f_equal; lia.
Qed.

(** an instance: a Point, then a feature without geometry *)
Lemma load_keeps_order_witness :
  _load_geojson Sample.externals
    (Sample.collection [Sample.point 10 20 []; JObj [("type", JStr "Feature")]]) "A"
  = Ok {| alias := "A"; index := 1; items := [Sample.at_ 20 10; SFalse] |}.
Proof.
  apply (proj2 (load_keeps_order Sample.externals
                  [("type", JStr "FeatureCollection");
                   ("features",
                    JArr [Sample.point 10 20 []; JObj [("type", JStr "Feature")]])]
                  [Sample.point 10 20 []; JObj [("type", JStr "Feature")]] "A"
                  _ eq_refl eq_refl)).
  exists [Sample.at_ 20 10; SFalse]. split; [|reflexivity].
  repeat constructor.
Defined.

(** what [props_from] returns is [None] or a non-empty dict *)
Lemma props_from_shape (item : json) (key : string) (p : json) :
  props_from item key = Ok p ->
  p = JNull \/ exists f, f <> [] /\ p = JObj f.
Proof.
  unfold props_from.
  destruct (Py.contains key item) as [present|e]; cbn [bind]; [|discriminate].
  destruct present; [|intros H; injection H as <-; left; reflexivity].
  destruct (Py.getitem item key) as [v|e]; cbn [bind]; [|discriminate].
  destruct (Py.truthy v) eqn:Ht; [|intros H; injection H as <-; left; reflexivity].
  destruct v as [| | | | |f]; try discriminate.
  destruct f as [|kv f]; [discriminate Ht|].
  cbn. intros H. injection H as <-. right.
  exists (kv :: f). split; [discriminate|reflexivity].
Qed.

(** whatever the feature, a stored record has attributes that are
    [None] or a non-empty dict and an original geometry that is [None]
    or an object *)
Lemma normalize_shape (L : Externals) (item : json)
    (c : json * json) (p g : json) :
  normalize L item = Ok (STuple c p g) ->
  (p = JNull \/ exists f, f <> [] /\ p = JObj f) /\
  (g = JNull \/ exists gs, g = JObj gs).
Proof.
  unfold normalize.
  destruct (Py.truthy item); cbn [negb]; [|discriminate].
  destruct (Py.contains "geometry" item) as [hg|e]; cbn [bind]; [|discriminate].
  destruct hg; cbn [negb]; [|discriminate].
  destruct (Py.getitem item "geometry") as [geometry|e]; cbn [bind]; [|discriminate].
  destruct (Py.contains "coordinates" geometry) as [hc|e]; cbn [bind]; [|discriminate].
  destruct hc; cbn [negb]; [|discriminate].
  destruct (Py.contains "type" item) as [ht|e]; cbn [bind]; [|discriminate].
  destruct ht; cbn [negb]; [|discriminate].
  destruct (Py.getitem geometry "type") as [gtype|e] eqn:Hgt; cbn [bind]; [|discriminate].
  destruct (Py.eqb gtype (JStr "Point")); cbn [negb].
  - destruct (Py.getitem geometry "coordinates") as [cs|e]; cbn [bind]; [|discriminate].
    destruct (Py.getindex cs 1) as [c1|e]; cbn [bind]; [|discriminate].
    destruct (Py.getindex cs 0) as [c0|e]; cbn [bind]; [|discriminate].
    destruct (Py.contains "tags" item) as [tg|e]; cbn [bind]; [|discriminate].
    destruct (props_from item (if tg then "tags" else "properties")) as [props|e] eqn:Hp;
      cbn [bind]; [|discriminate].
    intros H. injection H as <- <- <-.
    split; [eapply props_from_shape; exact Hp|left; reflexivity].
  - destruct (Py.eqb gtype (JStr "Polygon")); [|discriminate].
    destruct (Py.getitem geometry "coordinates") as [cs|e]; cbn [bind]; [|discriminate].
    destruct (Py.getindex cs 0) as [ring|e]; cbn [bind]; [|discriminate].
    destruct (polygon_centroid L ring) as [[x y]|e]; cbn [bind]; [|discriminate].
    destruct (props_from item "properties") as [props|e] eqn:Hp;
      cbn [bind]; [|discriminate].
    intros H. injection H as <- <- <-.
    split; [eapply props_from_shape; exact Hp|right].
    destruct geometry as [| | | | |gs]; try discriminate Hgt. eauto.
Qed.


(* ------------------------------------------------------------------ *)
(** ** More on the Diff Renderer *)

Lemma assoc_dict_set_same (d : list (string * json)) (k : string) (v : json) :
  Py.assoc k (dict_set d k v) = Some v.
Proof.
  induction d as [|[k' v'] d IH]; simpl.
  - rewrite String.eqb_refl. reflexivity.
  - destruct (String.eqb k k') eqn:E; simpl.
    + rewrite String.eqb_refl. reflexivity.
    + rewrite E. exact IH.
Qed.

Lemma assoc_dict_set_other (d : list (string * json)) (k k' : string) (v : json) :
  k' <> k ->
  Py.assoc k' (dict_set d k v) = Py.assoc k' d.
Proof.
  intros Hne. induction d as [|[k0 v0] d IH]; simpl.
  - apply String.eqb_neq in Hne. rewrite Hne. reflexivity.
  - destruct (String.eqb k k0) eqn:E; simpl.
    + apply String.eqb_eq in E. subst k0.
      apply String.eqb_neq in Hne. rewrite Hne. reflexivity.
    + destruct (String.eqb k' k0); [reflexivity|exact IH].
Qed.

Lemma assoc_absent (d : list (string * json)) (k : string) :
  ~ In k (map fst d) ->
  Py.assoc k d = None.
Proof.
  induction d as [|[k0 v0] d IH]; simpl; intros H; [reflexivity|].
  destruct (String.eqb k k0) eqn:E.
  - apply String.eqb_eq in E. subst. exfalso. apply H. left. reflexivity.
  - apply IH. intros Hin. apply H. right. exact Hin.
Qed.

Lemma append_same_prefix (p k k' : string) :
  (p ++ k = p ++ k')%string -> k = k'.
Proof.
  induction p as [|ch p IH]; simpl; intros H; [exact H|].
  injection H as H. exact (IH H).
Qed.

Lemma assoc_copy_other (p : string) (src : list (string * json)) :
  forall d k',
    (forall k, k' <> (p ++ k)%string) ->
    Py.assoc k' (copy_prefixed p src d) = Py.assoc k' d.
Proof.
  unfold copy_prefixed.
  induction src as [|[k0 v0] src IH]; intros d k' H; simpl; [reflexivity|].
  rewrite (IH _ k' H). apply assoc_dict_set_other. apply H.
Qed.

Lemma assoc_copy_prefixed (p : string) (src : list (string * json)) :
  NoDup (map fst src) ->
  forall d k,
    Py.assoc (p ++ k) (copy_prefixed p src d) =
      match Py.assoc k src with
      | Some v => Some v
      | None => Py.assoc (p ++ k) d
      end.
Proof.
  unfold copy_prefixed.
  induction src as [|[k0 v0] src IH]; intros Hnd d k; simpl; [reflexivity|].
  inversion Hnd as [|x l Hnotin Hnd']; subst.
  rewrite (IH Hnd'). destruct (String.eqb k k0) eqn:E.
  - apply String.eqb_eq in E. subst k0.
    rewrite (assoc_absent src k Hnotin). apply assoc_dict_set_same.
  - destruct (Py.assoc k src); [reflexivity|].
    apply assoc_dict_set_other. intros Heq.
    apply append_same_prefix in Heq. subst k0.
    rewrite String.eqb_refl in E. discriminate E.
Qed.

(** the feature one pass of the Diff Renderer builds for a valid record *)
Lemma diff_feature_value (L : Externals) (a_items b_items : list stored)
    (m : list (option entry)) (i : nat) (c : json * json) (pa g : json)
    (me : option entry) :
  nth_error a_items i = Some (STuple c pa g) ->
  props_ok (STuple c pa g) ->
  nth_error m i = Some me ->
  entry_ok b_items me ->
  diff_feature L a_items b_items m i =
    Ok (JObj [("geometry", if Py.is_none g then point_geometry c else g);
              ("properties",
               JObj (final_properties_of L (attrs pa) (matched_attrs b_items me) me));
              ("type", JStr "Feature")]).
Proof.
  intros Ha Hp Hm Hok. unfold diff_feature, list_get. rewrite Ha, Hm.
  cbn [bind sub2 sub1 sub0].
  assert (Hg : (if negb (Py.is_none g) then Ok g
                else Ok (JObj [("type", JStr "Point"); ("coordinates", tuple_value c)]))
               = Ok (if Py.is_none g then point_geometry c else g)).
  { destruct (Py.is_none g); reflexivity. }
  rewrite Hg. cbn [bind].
  assert (Hpa : (if negb (Py.is_none pa)
                 then its <- Py.items pa ;; Ok (copy_prefixed "a." its [])
                 else Ok []) = Ok (copy_prefixed "a." (attrs pa) [])).
  { destruct Hp as [->|[f ->]]; reflexivity. }
  rewrite Hpa. cbn [bind].
  destruct me as [e|].
  - destruct (Hok e eq_refl) as (cb & pb & gb & Hb & Hpb).
    unfold matched_attrs, final_properties_of. rewrite Hb. cbn [bind sub1].
    destruct Hpb as [->|[f ->]]; cbn [Py.truthy bind attrs].
    + reflexivity.
    + destruct f; reflexivity.
  - reflexivity.
Qed.

(** X14. In the feature the Diff Renderer builds for a valid A record,
    every attribute of the record is found under [a.<key>], every
    attribute of the matched B record under [b.<key>], and nothing else
    under such keys; [a->b.distance] is the rounded distance of the
    entry, or -1 without a match; [a->b.near] is there exactly when the
    entry has alternates, joined by blanks. *)
Theorem diff_properties_lookup (L : Externals) (a_items b_items : list stored)
    (m : list (option entry)) (i : nat) (c : json * json) (pa g : json)
    (me : option entry) :
  nth_error a_items i = Some (STuple c pa g) ->
  props_ok (STuple c pa g) ->
  nth_error m i = Some me ->
  entry_ok b_items me ->
  NoDup (map fst (attrs pa)) ->
  NoDup (map fst (matched_attrs b_items me)) ->
  exists geometry properties,
    diff_feature L a_items b_items m i =
      Ok (JObj [("geometry", geometry);
                ("properties", JObj properties);
                ("type", JStr "Feature")]) /\
    (forall k, Py.assoc ("a." ++ k) properties = Py.assoc k (attrs pa)) /\
    (forall k, Py.assoc ("b." ++ k) properties
               = Py.assoc k (matched_attrs b_items me)) /\
    Py.assoc "a->b.distance" properties =
      Some (match me with
            | Some e => JNum (py_round2 L (entry_dist e))
            | None => JNum (-1)
            end) /\
    Py.assoc "a->b.near" properties =
      match me with
      | Some e =>
          if skiped_truthy (entry_skiped e)
          then Some (JStr (Py.join " " (skiped_labels (entry_skiped e))))
          else None
      | None => None
      end.
Proof.
  intros Ha Hp Hm Hok Hna Hnb.
  eexists. eexists. split; [apply (diff_feature_value L _ _ _ _ _ _ _ _ Ha Hp Hm Hok)|].
  set (fa := attrs pa) in *. set (fb := matched_attrs b_items me) in *.
  set (base := copy_prefixed "b." fb (copy_prefixed "a." fa [])).
  assert (Hbase_a : forall k, Py.assoc ("a." ++ k) base = Py.assoc k fa).
  { intros k. unfold base. rewrite assoc_copy_other.
    - rewrite (assoc_copy_prefixed "a." fa Hna [] k).
      destruct (Py.assoc k fa); reflexivity.
    - intros k' H. simpl in H. discriminate H. }
  assert (Hbase_b : forall k, Py.assoc ("b." ++ k) base = Py.assoc k fb).
  { intros k. unfold base. rewrite (assoc_copy_prefixed "b." fb Hnb _ k).
    destruct (Py.assoc k fb); [reflexivity|].
    rewrite assoc_copy_other; [reflexivity|].
    intros k' H. simpl in H. discriminate H. }
  assert (Hbase_d : Py.assoc "a->b.distance" base = None
                    /\ Py.assoc "a->b.near" base = None).
  { unfold base. split; (rewrite !assoc_copy_other; [reflexivity| |]);
      intros k' H; simpl in H; discriminate H. }
  unfold final_properties_of. fold base.
  destruct me as [e|].
  - destruct (skiped_truthy (entry_skiped e)).
    + repeat split.
      * intros k. rewrite !assoc_dict_set_other; [apply Hbase_a| |];
          intros H; simpl in H; discriminate H.
      * intros k. rewrite !assoc_dict_set_other; [apply Hbase_b| |];
          intros H; simpl in H; discriminate H.
      * rewrite assoc_dict_set_other; [apply assoc_dict_set_same|discriminate].
      * apply assoc_dict_set_same.
    + repeat split.
      * intros k. rewrite assoc_dict_set_other; [apply Hbase_a|].
        intros H; simpl in H; discriminate H.
      * intros k. rewrite assoc_dict_set_other; [apply Hbase_b|].
        intros H; simpl in H; discriminate H.
      * apply assoc_dict_set_same.
      * rewrite assoc_dict_set_other; [apply Hbase_d|discriminate].
  - repeat split.
    + intros k. rewrite assoc_dict_set_other; [apply Hbase_a|].
      intros H; simpl in H; discriminate H.
    + intros k. rewrite assoc_dict_set_other; [apply Hbase_b|].
      intros H; simpl in H; discriminate H.
    + apply assoc_dict_set_same.
    + rewrite assoc_dict_set_other; [apply Hbase_d|discriminate].
Qed.

(** an instance: one Point with [id] a1 matched EXACT to one with [id] b1 *)
Lemma diff_properties_lookup_witness :
  exists geometry properties,
    diff_feature Sample.externals
      [STuple (JNum 0, JNum 0) (JObj [("id", JStr "a1")]) JNull]
      [STuple (JNum 0, JNum 0) (JObj [("id", JStr "b1")]) JNull]
      [Some (0%nat, MATCH_EXACT, 0%Q, None)] 0 =
      Ok (JObj [("geometry", geometry);
                ("properties", JObj properties);
                ("type", JStr "Feature")]) /\
    Py.assoc "a.id" properties = Some (JStr "a1") /\
    Py.assoc "b.id" properties = Some (JStr "b1") /\
    Py.assoc "a->b.distance" properties = Some (JNum 0).
Proof.
  destruct (diff_properties_lookup Sample.externals
              [STuple (JNum 0, JNum 0) (JObj [("id", JStr "a1")]) JNull]
              [STuple (JNum 0, JNum 0) (JObj [("id", JStr "b1")]) JNull]
              [Some (0%nat, MATCH_EXACT, 0%Q, None)] 0
              (JNum 0, JNum 0) (JObj [("id", JStr "a1")]) JNull
              (Some (0%nat, MATCH_EXACT, 0%Q, None)))
    as (geometry & properties & Hf & Ha & Hb & Hd & _).
  - reflexivity.
  - right. eexists. reflexivity.
  - reflexivity.
  - intros e He. injection He as <-.
    exists (JNum 0, JNum 0), (JObj [("id", JStr "b1")]), JNull.
    split; [reflexivity|]. right. eexists. reflexivity.
  - repeat constructor. intros [].
  - repeat constructor. intros [].
  - exists geometry, properties. repeat split.
    + exact Hf.
    + exact (Ha "id").
    + exact (Hb "id").
    + exact Hd.
Defined.

(** X15. The geometry of a Polygon feature comes back as it went in:
    the feature the Diff Renderer builds for the stored record has the
    input geometry object, not the centroid. *)
Theorem polygon_geometry_round_trip (L : Externals)
    (fs gs : list (string * json)) (coordinates ty : json) (s : stored)
    (a_items b_items : list stored) (m : list (option entry)) (i : nat)
    (me : option entry) :
  Py.assoc "geometry" fs = Some (JObj gs) ->
  Py.assoc "coordinates" gs = Some coordinates ->
  Py.assoc "type" fs = Some ty ->
  Py.assoc "type" gs = Some (JStr "Polygon") ->
  normalize L (JObj fs) = Ok s ->
  nth_error a_items i = Some s ->
  nth_error m i = Some me ->
  entry_ok b_items me ->
  exists properties,
    diff_feature L a_items b_items m i =
      Ok (JObj [("geometry", JObj gs);
                ("properties", JObj properties);
                ("type", JStr "Feature")]).
Proof.
  intros Hg Hc Hty Ht Hn Ha Hm Hok.
  assert (Hs : exists c p, s = STuple c p (JObj gs) /\ props_ok s).
  { unfold normalize in Hn.
    assert (Hfs : Py.truthy (JObj fs) = true).
    { destruct fs; [discriminate Hg|reflexivity]. }
    rewrite Hfs in Hn. cbn [negb Py.contains Py.getitem bind] in Hn.
    rewrite Hg in Hn. cbn [negb Py.contains Py.getitem bind] in Hn.
    rewrite Hc, Hty in Hn. cbn [negb bind] in Hn. rewrite Ht in Hn.
    cbn [negb bind] in Hn.
    change (Py.eqb (JStr "Polygon") (JStr "Point")) with false in Hn.
    change (Py.eqb (JStr "Polygon") (JStr "Polygon")) with true in Hn.
    cbn [negb bind] in Hn.
    destruct (Py.getindex coordinates 0) as [ring|e]; cbn [bind] in Hn;
      [|discriminate Hn].
    destruct (polygon_centroid L ring) as [[x y]|e]; cbn [bind] in Hn;
      [|discriminate Hn].
    destruct (props_from (JObj fs) "properties") as [props|e] eqn:Hp;
      cbn [bind] in Hn; [|discriminate Hn].
    injection Hn as <-. eexists. eexists. split; [reflexivity|].
    destruct (props_from_shape _ _ _ Hp) as [->|(f & _ & ->)]; simpl; eauto. }
  destruct Hs as (c & p & -> & Hp).
  eexists. apply (diff_feature_value L _ _ _ _ _ _ _ _ Ha Hp Hm Hok).
Qed.

(** an instance: the sample square, unmatched *)
Lemma polygon_geometry_round_trip_witness :
  exists properties,
    diff_feature Shapes.externals
      [STuple (JNum 1, JNum 1) JNull (JObj Shapes.square_geometry)] [] [None] 0 =
      Ok (JObj [("geometry", JObj Shapes.square_geometry);
                ("properties", JObj properties);
                ("type", JStr "Feature")]).
Proof.
  apply (polygon_geometry_round_trip Shapes.externals
           [("type", JStr "Feature"); ("geometry", JObj Shapes.square_geometry)]
           Shapes.square_geometry (JArr [Shapes.square]) (JStr "Feature")
           (STuple (JNum 1, JNum 1) JNull (JObj Shapes.square_geometry))
           [STuple (JNum 1, JNum 1) JNull (JObj Shapes.square_geometry)] []
           [None] 0 None); try reflexivity.
  intros e He. discriminate He.
Defined.

(* ------------------------------------------------------------------ *)
(** ** More on the Tabular Renderer *)

(** X16. The title of falsy attributes is empty.  For a non-empty dict
    the title is built from [name] if the dict has it, else from [nome],
    else from the empty string, with the [ref] in parentheses after it
    when there is one, and stripped; a title value that is not a string
    raises [TypeError] when a [ref] is to be appended and
    [AttributeError] when it is not. *)
Theorem short_title_prefers_name (L : Externals) :
  (forall p, Py.truthy p = false -> _short_title L p = Ok "") /\
  (forall f, f <> [] ->
     _short_title L (JObj f) =
       match Py.assoc "ref" f with
       | Some r =>
           match title_value f with
           | JStr s => Ok (py_strip L (s ++ " (" ++ py_str L r ++ ")"))
           | _ => Raise TypeError
           end
       | None =>
           match title_value f with
           | JStr s => Ok (py_strip L s)
           | _ => Raise AttributeError
           end
       end).
Proof.
  split.
  - intros p H. unfold _short_title. rewrite H. reflexivity.
  - intros f Hf. unfold _short_title, title_value.
    destruct f as [|kv f]; [contradiction|].
    cbn [Py.truthy negb Py.len_keys Py.items bind List.length Nat.eqb
         Py.contains Py.getitem].
    destruct (Py.assoc "nome" (kv :: f)) as [v1|];
      destruct (Py.assoc "name" (kv :: f)) as [v2|];
      destruct (Py.assoc "ref" (kv :: f)) as [r|]; cbn [bind];
      try (destruct v1; reflexivity); try (destruct v2; reflexivity);
      reflexivity.
Qed.

(** an instance: a [nome], a [name] and a [ref] *)
Lemma short_title_prefers_name_witness :
  _short_title Sample.externals
    (JObj [("nome", JStr "Usina"); ("name", JStr "Plant"); ("ref", JStr "7")])
  = Ok "Plant (7)".
Proof.
  refine (eq_trans
            (proj2 (short_title_prefers_name Sample.externals)
               [("nome", JStr "Usina"); ("name", JStr "Plant"); ("ref", JStr "7")] _)
            _).
  - discriminate.
  - reflexivity.
Defined.

Lemma id_a_cell_ok (p : json) :
  p = JNull \/ (exists f, p = JObj f) ->
  exists v,
    (if negb (Py.truthy p) then Ok (JStr "") else
       has_id <- Py.contains "id" p ;;
       if negb has_id then Ok (JStr "") else Py.getitem p "id") = Ok v.
Proof.
  intros [->|[f ->]]; [simpl; eauto|].
  destruct f as [|kv f]; [simpl; eauto|].
  cbn [Py.truthy negb Py.contains bind Py.getitem].
  destruct (Py.assoc "id" (kv :: f)) as [w|]; cbn [negb]; eauto.
Qed.

Lemma id_b_cell_ok (p : json) :
  p = JNull \/ (exists f, p = JObj f) ->
  exists v,
    (if Py.truthy p then
       has_id <- Py.contains "id" p ;;
       if has_id then Py.getitem p "id" else Ok (JStr "")
     else Ok (JStr "")) = Ok v.
Proof.
  intros [->|[f ->]]; [simpl; eauto|].
  destruct f as [|kv f]; [simpl; eauto|].
  cbn [Py.truthy negb Py.contains bind Py.getitem].
  destruct (Py.assoc "id" (kv :: f)) as [w|]; eauto.
Qed.

(** how a table entry shows in a row: the label of its B index and its
    distance, or the empty string and -1 *)
Lemma tabular_row_value (L : Externals) (a_items b_items : list stored)
    (m : list (option entry)) (i : nat) (c : json * json) (pa g : json)
    (me : option entry) :
  nth_error a_items i = Some (STuple c pa g) ->
  props_ok (STuple c pa g) ->
  (exists t, _short_title L pa = Ok t) ->
  nth_error m i = Some me ->
  (forall e, me = Some e ->
     exists cb pb gb,
       nth_error b_items (entry_index e) = Some (STuple cb pb gb) /\
       props_ok (STuple cb pb gb) /\
       exists t, _short_title L pb = Ok t) ->
  exists row,
    tabular_row L a_items b_items m i = Ok row /\
    List.length row = 12%nat /\
    nth_error row 0 = Some (JStr ("A" ++ Py.str_of_nat i)) /\
    nth_error row 1 =
      Some (match me with
            | Some e => JStr (label_b (entry_index e))
            | None => JStr ""
            end) /\
    nth_error row 4 =
      Some (match me with
            | Some e => JNum (entry_dist e)
            | None => JNum (-1)
            end).
Proof.
  intros Ha Hp [ta Hta] Hm Hok. unfold tabular_row, list_get. rewrite Ha, Hm.
  cbn [bind sub1 sub0 stored_truthy negb fst snd].
  destruct (id_a_cell_ok pa Hp) as [ida Hida]. rewrite Hida. cbn [bind].
  rewrite Hta. cbn [bind].
  destruct me as [e|].
  - destruct (Hok e eq_refl) as (cb & pb & gb & Hb & Hpb & tb & Htb).
    rewrite Hb. cbn [bind sub1 sub0 fst snd]. rewrite Htb. cbn [bind].
    destruct (id_b_cell_ok pb Hpb) as [idb Hidb]. rewrite Hidb. cbn [bind].
    eexists. split; [reflexivity|]. repeat split.
  - cbn [bind]. eexists. split; [reflexivity|]. repeat split.
Qed.

Lemma tabular_rows_ok (L : Externals) (a_items b_items : list stored)
    (m : list (option entry)) (n : nat) :
  forall k data,
    (forall i, (k <= i < k + n)%nat ->
               exists row, tabular_row L a_items b_items m i = Ok row) ->
    exists out,
      tabular_rows L a_items b_items m n k data = Ok (data ++ out) /\
      List.length out = n /\
      forall i row, nth_error out i = Some row ->
                    tabular_row L a_items b_items m (k + i) = Ok row.
Proof.
  induction n as [|n IH]; intros k data Hall.
  - exists []. simpl. rewrite app_nil_r. repeat split.
    intros i row H. destruct i; discriminate.
  - destruct (Hall k) as [row Hrow]; [lia|].
    destruct (IH (S k) (data ++ [row])) as (out & Hout & Hlen & Hnth).
    { intros i Hi. apply Hall. lia. }
    exists (row :: out). simpl. rewrite Hrow. cbn [bind].
    rewrite Hout, <- app_assoc. repeat split; [simpl; lia|].
    intros i r Hi. destruct i as [|i]; simpl in Hi.
    + injection Hi as <-. rewrite Nat.add_0_r. exact Hrow.
    + apply Hnth in Hi. rewrite <- Hi. f_equal. lia.
Qed.

(** X17. When every A record is valid, every table entry names a valid
    B record and the titles of the records can be built, the Tabular
    Renderer returns the header followed by one row of twelve cells per
    A record, in A's order; row [i] starts with the label [A<i>] and
    shows entry [i] of the table: the label [B<index>] and the distance
    as stored, not rounded, or an empty cell and -1 for [None]. *)
Theorem tabular_one_row_per_record (L : Externals)
    (a_items b_items : list stored) (m : list (option entry)) :
  (forall s, In s a_items ->
     exists c p g, s = STuple c p g /\ props_ok s /\
                   exists t, _short_title L p = Ok t) ->
  (forall cb pb gb, In (STuple cb pb gb) b_items ->
     props_ok (STuple cb pb gb) /\ exists t, _short_title L pb = Ok t) ->
  (List.length a_items <= List.length m)%nat ->
  (forall e, In (Some e) m ->
     exists cb pb gb, nth_error b_items (entry_index e) = Some (STuple cb pb gb)) ->
  exists data,
    summary_tabular L a_items b_items m = Ok (header :: data) /\
    List.length data = List.length a_items /\
    forall i row, nth_error data i = Some row ->
      List.length row = 12%nat /\
      nth_error row 0 = Some (JStr ("A" ++ Py.str_of_nat i)) /\
      exists me,
        nth_error m i = Some me /\
        nth_error row 1 =
          Some (match me with
                | Some e => JStr (label_b (entry_index e))
                | None => JStr ""
                end) /\
        nth_error row 4 =
          Some (match me with
                | Some e => JNum (entry_dist e)
                | None => JNum (-1)
                end).
Proof.
  intros HA HB Hlen Hsound.
  assert (Hrow : forall i, (i < List.length a_items)%nat ->
            exists me row,
              nth_error m i = Some me /\
              tabular_row L a_items b_items m i = Ok row /\
              List.length row = 12%nat /\
              nth_error row 0 = Some (JStr ("A" ++ Py.str_of_nat i)) /\
              nth_error row 1 =
                Some (match me with
                      | Some e => JStr (label_b (entry_index e))
                      | None => JStr ""
                      end) /\
              nth_error row 4 =
                Some (match me with
                      | Some e => JNum (entry_dist e)
                      | None => JNum (-1)
                      end)).
  { intros i Hi.
    destruct (nth_error a_items i) as [s|] eqn:Hs;
      [|apply nth_error_None in Hs; lia].
    destruct (HA s (nth_error_In _ _ Hs)) as (c & p & g & -> & Hp & Ht).
    destruct (nth_error m i) as [me|] eqn:Hme;
      [|apply nth_error_None in Hme; lia].
    destruct (tabular_row_value L a_items b_items m i c p g me Hs Hp Ht Hme)
      as (row & H1 & H2 & H3 & H4 & H5).
    { intros e ->.
      destruct (Hsound e (nth_error_In _ _ Hme)) as (cb & pb & gb & Hb).
      exists cb, pb, gb. split; [exact Hb|].
      apply HB. eapply nth_error_In. exact Hb. }
    exists me, row. repeat split; assumption. }
  destruct (tabular_rows_ok L a_items b_items m (List.length a_items) 0 [])
    as (out & Hout & Hlo & Hnth).
  { intros i Hi. destruct (Hrow i) as (me & row & _ & Hr & _); [lia|]. eauto. }
  exists out. split; [unfold summary_tabular; rewrite Hout; reflexivity|].
  split; [exact Hlo|].
  intros i row Hi.
  assert (Hlt : (i < List.length a_items)%nat).
  { rewrite <- Hlo. apply nth_error_Some. congruence. }
  apply Hnth in Hi. simpl in Hi.
  destruct (Hrow i Hlt) as (me & row' & Hme & Hr & H2 & H3 & H4 & H5).
  rewrite Hr in Hi. injection Hi as <-.
  split; [exact H2|]. split; [exact H3|]. exists me. repeat split; assumption.
Qed.

(** an instance: one unmatched Point *)
Lemma tabular_one_row_per_record_witness :
  exists data,
    summary_tabular Sample.externals [Sample.at_ 20 10] [] [None]
      = Ok (header :: data) /\
    List.length data = 1%nat.
Proof.
  destruct (tabular_one_row_per_record Sample.externals [Sample.at_ 20 10] [] [None])
    as (data & Hd & Hlen & _).
  - intros s [<-|[]]. exists (JNum 20, JNum 10), JNull, JNull.
    split; [reflexivity|]. split; [left; reflexivity|].
    eexists. reflexivity.
  - intros cb pb gb [].
  - simpl. lia.
  - intros e [H|[]]. discriminate H.
  - exists data. split; [exact Hd|exact Hlen].
Defined.

(* ------------------------------------------------------------------ *)
(** ** More on what a load and a comparison can hold *)

Lemma Forall2_in_right {A B : Type} (R : A -> B -> Prop) (l : list A) (l' : list B) :
  Forall2 R l l' ->
  forall y, In y l' -> exists x, In x l /\ R x y.
Proof.
  induction 1 as [|x y l l' Hxy _ IH]; intros z Hz; [destruct Hz|].
  destruct Hz as [<-|Hz].
  - exists x. split; [left; reflexivity|exact Hxy].
  - destruct (IH z Hz) as (x' & Hin & Hr). exists x'. split; [right; exact Hin|exact Hr].
Qed.

(** X13. Whatever the document, every record of a dataset that loads
    has attributes that are [None] or a non-empty dict and an original
    geometry that is [None] or an object: the values the matching
    engine compares and the renderers subscript and iterate. *)
Theorem loaded_records_shape (L : Externals) (doc : json) (name : string)
    (d : DatasetInMemory) (c : json * json) (p g : json) :
  _load_geojson L doc name = Ok d ->
  In (STuple c p g) (items d) ->
  (p = JNull \/ exists f, f <> [] /\ p = JObj f) /\
  (g = JNull \/ exists gs, g = JObj gs).
Proof.
  unfold _load_geojson. intros H Hin.
  destruct (Py.contains "elements" doc) as [he|e]; cbn [bind] in H; [|discriminate H].
  destruct (Py.getitem doc (if he then "elements" else "features")) as [arr|e];
    cbn [bind] in H; [|discriminate H].
  destruct (Py.iter arr) as [feats|e]; cbn [bind] in H; [|discriminate H].
  apply add_items_iff in H. destruct H as (ss & Hf & ->).
  cbn [items DatasetInMemory_init app] in Hin.
  destruct (Forall2_in_right _ _ _ Hf _ Hin) as (item & _ & Hn).
  eapply normalize_shape. exact Hn.
Qed.

(** an instance: the sample square among the features *)
Lemma loaded_records_shape_witness :
  (JObj [("name", JStr "p")] = JNull \/
   exists f, f <> [] /\ JObj [("name", JStr "p")] = JObj f) /\
  (JObj Shapes.square_geometry = JNull \/
   exists gs, JObj Shapes.square_geometry = JObj gs).
Proof.
  apply (loaded_records_shape Shapes.externals
           (Sample.collection
              [Sample.point 0 0 [];
               JObj [("type", JStr "Feature");
                     ("geometry", JObj Shapes.square_geometry);
                     ("properties", JObj [("name", JStr "p")])]])
           "A"
           {| alias := "A"; index := 1;
              items := [Sample.at_ 0 0;
                        STuple (JNum 1, JNum 1) (JObj [("name", JStr "p")])
                          (JObj Shapes.square_geometry)] |}
           (JNum 1, JNum 1)).
  - reflexivity.
  - right. left. reflexivity.
Defined.

(** X18. A placeholder among the A records takes one [None] entry and
    nothing else: the table is the table of the records before it, then
    [None], then the table of the records after it, and it raises only
    if one of these two raises. *)
Theorem placeholder_is_isolated (L : Externals) (tol : Z)
    (before after b_items : list stored) (s : stored) :
  stored_truthy s = false ->
  compute L tol (before ++ s :: after) b_items =
    (m1 <- compute L tol before b_items ;;
     m2 <- compute L tol after b_items ;;
     Ok (m1 ++ None :: m2)).
Proof.
  intros Hs. unfold compute. rewrite compute_from_app.
  destruct (compute_from L tol before b_items []) as [m1|e]; cbn [bind]; [|reflexivity].
  cbn [compute_from].
  assert (Hi : compute_iter L tol b_items m1 s = Ok (m1 ++ [None])).
  { destruct s; [reflexivity|reflexivity|discriminate Hs]. }
  rewrite Hi. cbn [bind]. rewrite compute_from_shift.
  destruct (compute_from L tol after b_items []) as [m2|e]; cbn [bind]; [|reflexivity].
  rewrite <- app_assoc. reflexivity.
Qed.

(** an instance: a [False] between two Points *)
Lemma placeholder_is_isolated_witness :
  compute Sample.externals 100
    ([Sample.at_ 0 0] ++ SFalse :: [Sample.at_ 0 1]) [Sample.at_ 0 0]
  = (m1 <- compute Sample.externals 100 [Sample.at_ 0 0] [Sample.at_ 0 0] ;;
     m2 <- compute Sample.externals 100 [Sample.at_ 0 1] [Sample.at_ 0 0] ;;
     Ok (m1 ++ None :: m2)).
Proof.
  apply (placeholder_is_isolated Sample.externals 100 [Sample.at_ 0 0]
           [Sample.at_ 0 1] [Sample.at_ 0 0] SFalse).
  reflexivity.
Defined.

(** X19. [compute] returns exactly when [haversine] returns on every
    pair of a valid A record and a valid B record with unequal
    coordinates; no other pair is ever passed to it. *)
Theorem compute_returns_iff (L : Externals) (tol : Z)
    (a_items b_items : list stored) :
  (exists m, compute L tol a_items b_items = Ok m) <->
  (forall ca pa ga cb pb gb,
      In (STuple ca pa ga) a_items ->
      In (STuple cb pb gb) b_items ->
      coords_eqb ca cb = false ->
      exists d, haversine L ca cb = Ok d).
Proof.
  split.
  - intros [m Hm] ca pa ga cb pb gb Ha Hb Hc.
    apply compute_spec in Hm. destruct Hm as [Hd _].
    pose proof (proj1 (Forall_forall _ _) Hd _ Ha) as Hrow. simpl in Hrow.
    apply (Hrow cb pb gb Hb). rewrite exact_test_coords. exact Hc.
  - intros H. eexists. apply compute_defined. apply Forall_forall.
    intros x Hx. destruct x as [| |ca pa ga]; simpl; trivial.
    intros cb pb gb Hb Hex. rewrite exact_test_coords in Hex.
    exact (H ca pa ga cb pb gb Hx Hb Hex).
Qed.

(** an instance: the sample distances are defined on every pair of
    numeric coordinates *)
Lemma compute_returns_iff_witness :
  exists m,
    compute Sample.externals 100 [Sample.at_ 0 0; SNone]
      [Sample.at_ 0 1; SFalse] = Ok m.
Proof.
  apply (proj2 (compute_returns_iff Sample.externals 100 [Sample.at_ 0 0; SNone]
                  [Sample.at_ 0 1; SFalse])).
  intros ca pa ga cb pb gb [Ha|[Ha|[]]] [Hb|[Hb|[]]] _;
    try discriminate Ha; try discriminate Hb.
  injection Ha as <- <- <-. injection Hb as <- <- <-.
  eexists. reflexivity.
Defined.

(* ------------------------------------------------------------------ *)
(** ** From the input document to the diff document *)

Lemma Forall2_nth_left {A B : Type} (R : A -> B -> Prop) (l : list A) (l' : list B) :
  Forall2 R l l' ->
  forall i x, nth_error l i = Some x ->
    exists y, nth_error l' i = Some y /\ R x y.
Proof.
  induction 1 as [|x y l l' Hxy _ IH]; intros i z Hz.
  - destruct i; discriminate Hz.
  - destruct i as [|i]; simpl in Hz.
    + injection Hz as <-. exists y. split; [reflexivity|exact Hxy].
    + exact (IH i z Hz).
Qed.

Lemma Forall2_same_length {A B : Type} (R : A -> B -> Prop) (l : list A) (l' : list B) :
  Forall2 R l l' -> List.length l = List.length l'.
Proof. induction 1; simpl; congruence. Qed.

Lemma normalized_props_ok (L : Externals) (item : json) (s : stored) :
  normalize L item = Ok s -> props_ok s.
Proof.
  destruct s as [| |c p g]; simpl; trivial. intros H.
  destruct (proj1 (normalize_shape L item c p g H)) as [->|(f & _ & ->)]; eauto.
Qed.

Lemma loaded_props_ok (L : Externals) (doc : json) (name : string)
    (d : DatasetInMemory) :
  _load_geojson L doc name = Ok d ->
  Forall props_ok (items d).
Proof.
  unfold _load_geojson. intros H.
  destruct (Py.contains "elements" doc) as [he|e]; cbn [bind] in H; [|discriminate H].
  destruct (Py.getitem doc (if he then "elements" else "features")) as [arr|e];
    cbn [bind] in H; [|discriminate H].
  destruct (Py.iter arr) as [feats|e]; cbn [bind] in H; [|discriminate H].
  apply add_items_iff in H. destruct H as (ss & Hf & ->).
  cbn [items DatasetInMemory_init app]. apply Forall_forall. intros s Hs.
  destruct (Forall2_in_right _ _ _ Hf _ Hs) as (item & _ & Hn).
  eapply normalized_props_ok. exact Hn.
Qed.

(** a Point feature that is stored as a record is stored with its two
    first coordinates swapped and without original geometry *)
Lemma normalize_point_valid (L : Externals) (fs gs : list (string * json))
    (lng lat : json) (rest : list json) (s : stored) :
  Py.assoc "geometry" fs = Some (JObj gs) ->
  Py.assoc "type" gs = Some (JStr "Point") ->
  Py.assoc "coordinates" gs = Some (JArr (lng :: lat :: rest)) ->
  normalize L (JObj fs) = Ok s ->
  stored_truthy s = true ->
  exists props, s = STuple (lat, lng) props JNull.
Proof.
  intros Hg Ht Hc Hn Hs.
  destruct (Py.assoc "type" fs) as [ty|] eqn:Hty.
  - rewrite (normalize_point L fs gs lng lat ty rest Hg Hc Ht Hty) in Hn.
    destruct (props_from (JObj fs) _) as [props|e]; cbn [bind] in Hn;
      [|discriminate Hn].
    injection Hn as <-. eauto.
  - exfalso. unfold normalize in Hn.
    assert (Hfs : Py.truthy (JObj fs) = true).
    { destruct fs; [discriminate Hg|reflexivity]. }
    rewrite Hfs in Hn. cbn [negb Py.contains Py.getitem bind] in Hn.
    rewrite Hg in Hn. cbn [negb Py.contains Py.getitem bind] in Hn.
    rewrite Hc, Hty in Hn. cbn [negb bind] in Hn.
    injection Hn as <-. discriminate Hs.
Qed.

(** C10. A Point feature whose input coordinates are
    [[longitude, latitude, ...]] is stored as the tuple
    (latitude, longitude) without original geometry, and the feature
    the Diff Renderer builds for it has the geometry
    [{"type": "Point", "coordinates": [latitude, longitude]}]: the
    stored tuple as it is, latitude first, the reverse of the input
    order.  This holds for each feature the renderer builds, and when
    the two documents load, every A record is valid and [haversine]
    returns where it is called, the comparison is built and the
    renderer returns one such feature per input feature, in input
    order. *)
Theorem point_fallback_is_latitude_first (L : Externals) (tolerance : Z) :
  (forall fs gs longitude latitude rest s a_items b_items m i res,
      Py.assoc "geometry" fs = Some (JObj gs) ->
      Py.assoc "type" gs = Some (JStr "Point") ->
      Py.assoc "coordinates" gs = Some (JArr (longitude :: latitude :: rest)) ->
      normalize L (JObj fs) = Ok s ->
      stored_truthy s = true ->
      nth_error a_items i = Some s ->
      diff_feature L a_items b_items m i = Ok res ->
      (exists props, s = STuple (latitude, longitude) props JNull) /\
      exists props,
        res = JObj [("geometry",
                     JObj [("type", JStr "Point");
                           ("coordinates", JArr [latitude; longitude])]);
                    ("properties", JObj props);
                    ("type", JStr "Feature")]) /\
  (forall fs_a feats_a doc_b a_items db,
      Py.assoc "elements" fs_a = None ->
      Py.assoc "features" fs_a = Some (JArr feats_a) ->
      Forall2 (fun f s => normalize L f = Ok s) feats_a a_items ->
      (forall s, In s a_items -> stored_truthy s = true) ->
      _load_geojson L doc_b "B" = Ok db ->
      Forall (row_defined L (items db)) a_items ->
      exists gc feats,
        GeojsonCompare_init L (JObj fs_a) doc_b tolerance = Ok gc /\
        items (ds_a gc) = a_items /\
        diff_geojson_full L (items (ds_a gc)) (items (ds_b gc)) (matrix gc)
          = Ok (JObj [("type", JStr "FeatureCollection"); ("features", JArr feats)]) /\
        List.length feats = List.length feats_a /\
        forall i fs gs longitude latitude rest,
          nth_error feats_a i = Some (JObj fs) ->
          Py.assoc "geometry" fs = Some (JObj gs) ->
          Py.assoc "type" gs = Some (JStr "Point") ->
          Py.assoc "coordinates" gs = Some (JArr (longitude :: latitude :: rest)) ->
          exists props,
            nth_error feats i =
              Some (JObj [("geometry",
                           JObj [("type", JStr "Point");
                                 ("coordinates", JArr [latitude; longitude])]);
                          ("properties", JObj props);
                          ("type", JStr "Feature")])).
Proof.
  split.
  - intros fs gs longitude latitude rest s a_items b_items m i res
           Hg Ht Hc Hn Hs Ha Hres.
    destruct (normalize_point_valid L fs gs longitude latitude rest s Hg Ht Hc Hn Hs)
      as [props ->].
    split; [eauto|].
    exact (proj1 (diff_renders_valid_records L tolerance a_items b_items)
             m i latitude longitude props res Ha Hres).
  - intros fs_a feats_a doc_b a_items db He Hf Hall Hvalid Hdb Hdef.
    assert (Hda : _load_geojson L (JObj fs_a) "A"
                  = Ok {| alias := "A";
                          index := (-1 + Z.of_nat (List.length feats_a))%Z;
                          items := a_items |}).
    { unfold _load_geojson. cbn [Py.contains Py.getitem bind].
      rewrite He. cbn [bind]. rewrite Hf. cbn [Py.iter bind].
      apply add_items_iff. exists a_items. split; [exact Hall|reflexivity]. }
    assert (Hpa : Forall props_ok a_items).
    { apply Forall_forall. intros s Hs.
      destruct (Forall2_in_right _ _ _ Hall _ Hs) as (item & _ & Hn).
      eapply normalized_props_ok. exact Hn. }
    pose proof (loaded_props_ok L doc_b "B" db Hdb) as Hpb.
    destruct (proj2 (diff_renders_valid_records L tolerance a_items (items db))
                Hdef Hvalid Hpa Hpb)
      as (m & feats & Hm & Hdiff & Hlen & Hgeo).
    eexists. exists feats.
    split.
    { unfold GeojsonCompare_init. rewrite Hda, Hdb. cbn [bind items].
      rewrite Hm. cbn [bind]. reflexivity. }
    cbn [ds_a ds_b matrix items].
    split; [reflexivity|]. split; [exact Hdiff|].
    split; [rewrite Hlen; symmetry; eapply Forall2_same_length; exact Hall|].
    intros i fs gs longitude latitude rest Hi Hg Ht Hc.
    destruct (Forall2_nth_left _ _ _ Hall i _ Hi) as (s & Hs & Hn).
    destruct (normalize_point_valid L fs gs longitude latitude rest s Hg Ht Hc Hn
                (Hvalid s (nth_error_In _ _ Hs)))
      as [props ->].
    exact (Hgeo i latitude longitude props Hs).
Qed.

(** an instance: the Point at longitude 10 and latitude 20, against an
    empty B *)
Lemma point_fallback_is_latitude_first_witness :
  exists gc feats,
    GeojsonCompare_init Sample.externals
      (Sample.collection [Sample.point 10 20 []]) (Sample.collection []) 100
      = Ok gc /\
    diff_geojson_full Sample.externals
      (items (ds_a gc)) (items (ds_b gc)) (matrix gc)
      = Ok (JObj [("type", JStr "FeatureCollection"); ("features", JArr feats)]) /\
    exists props,
      nth_error feats 0 =
        Some (JObj [("geometry",
                     JObj [("type", JStr "Point");
                           ("coordinates", JArr [JNum 20; JNum 10])]);
                    ("properties", JObj props);
                    ("type", JStr "Feature")]).
Proof.
  destruct (proj2 (point_fallback_is_latitude_first Sample.externals 100)
              [("type", JStr "FeatureCollection");
               ("features", JArr [Sample.point 10 20 []])]
              [Sample.point 10 20 []] (Sample.collection [])
              [Sample.at_ 20 10]
              {| alias := "B"; index := (-1)%Z; items := [] |})
    as (gc & feats & Hgc & _ & Hdiff & _ & Hgeo).
  - reflexivity.
  - reflexivity.
  - repeat constructor.
  - intros s [<-|[]]. reflexivity.
  - reflexivity.
  - repeat constructor. intros cb pb gb [].
  - exists gc, feats. split; [exact Hgc|]. split; [exact Hdiff|].
    apply (Hgeo 0%nat
             [("type", JStr "Feature");
              ("geometry", JObj [("type", JStr "Point");
                                 ("coordinates", JArr [JNum 10; JNum 20])])]
             [("type", JStr "Point"); ("coordinates", JArr [JNum 10; JNum 20])]
             (JNum 10) (JNum 20) []); reflexivity.
Defined.
